(** * Crawl orchestration: the task server (server.py) and the bulk
      sitemap crawler (crawl_site.py)

    The development embeds the two Python programs as executable Rocq
    functions.  External collaborators are inputs of the model:

    - the value returned by [uuid.uuid4()] is carried by the event that
      submits a request;
    - the outcome of awaiting [crawler.arun(...)] (a returned CrawlResult
      or a raised exception) is carried by the event that settles a
      worker, or given by an oracle indexed by session number in the bulk
      crawler;
    - HTTP fetching and XML parsing of a sitemap are one function from a
      URL to the list of the texts of its [loc] elements.

    Floating point fields (filter thresholds, timings) and the link and
    image lists of a result take no part in any control decision and are
    left out of the records. *)

From stdpp Require Import gmap strings list fin_maps.
From Stdlib Require Import ZArith Lia Ascii.

#[local] Set Warnings "-clear-no-such-hyp".

Local Open Scope string_scope.
Local Open Scope list_scope.
Local Open Scope stdpp_scope.

(** ** server.py *)

Module Server.

(** [urls: Union[str, List[str]]] *)
Inductive Urls :=
| UrlStr (s : string)
| UrlList (l : list string).

(** [class CrawlRequest(BaseModel)], lines 52-62.  [custom_schema] is a
    dict, of which only emptiness is ever inspected. *)
Record CrawlRequest := mkCrawlRequest {
  urls : Urls;
  priority : Z;
  use_llm : bool;
  custom_schema : option (list (string * string));
  search_query : option string;
  extract_json : bool;
  content_filter : string;
  wait_for : string;
  page_timeout : Z
}.

(** The [Field(ge=..., le=...)] constraints of lines 54 and 62, checked by
    the framework before the handler runs; a body that violates one is
    answered 422 and the handler is not called. *)
Definition validate (body : CrawlRequest) : bool :=
  (1 <=? priority body)%Z && (priority body <=? 10)%Z &&
  (1000 <=? page_timeout body)%Z && (page_timeout body <=? 60000)%Z.

(** A markdown generation result and the renderer's CrawlResult as far as
    [process_crawl] reads it.  The code guards its reads with [hasattr],
    so an attribute is absent, present and [None], or present with a
    value. *)
Record MdResult := mkMd {
  raw_markdown : string;
  fit_markdown : option string
}.

Inductive Attr (A : Type) :=
| Absent
| IsNone
| Has (a : A).
Arguments Absent {A}.
Arguments IsNone {A}.
Arguments Has {A} a.

Record CrawlResult := mkCrawlResult {
  success : bool;
  markdown_v2 : Attr MdResult;
  extracted_content : option string;
  error_message : Attr string;
  repr : string                    (* [str(result)] *)
}.

(** What awaiting [crawler.arun] gives back. *)
Inductive Outcome :=
| Returned (r : CrawlResult)
| Raised (msg : string).

(** The ["result"] dict of a completed task (lines 232-243). *)
Record Payload := mkPayload {
  p_url : string;
  p_raw_markdown : option string;
  p_fit_markdown : option string;
  p_extracted_json : option string
}.

(** An entry of the global [tasks] dict.  A key of the Python dict that is
    missing is [None] here; a key bound to Python's [None] is [Some None]. *)
Record Task := mkTask {
  status : string;
  result : option (option Payload);
  error : option (option string)
}.

Definition pending_task : Task := mkTask "pending" (Some None) None.
Definition completed_task (p : Payload) : Task :=
  mkTask "completed" (Some (Some p)) None.
Definition failed_task (msg : option string) : Task :=
  mkTask "failed" None (Some msg).

(** The content filter handed to the markdown generator (lines 171-182). *)
Inductive ContentFilter :=
| PruningContentFilter
| BM25ContentFilter (user_query : string).

(** [CrawlerRunConfig(...)], lines 198-206. *)
Record CrawlerRunConfig := mkRunConfig {
  cfg_content_filter : option ContentFilter;
  cfg_extraction_strategy : option (list (string * string));
  cfg_wait_until : string;
  cfg_page_timeout : Z
}.

(** A coroutine created by [asyncio.create_task(process_crawl(...))]: not
    yet inside the semaphore, suspended on [crawler.arun], or returned. *)
Inductive Phase :=
| Waiting
| Rendering (url : string) (config : CrawlerRunConfig)
| Finished.

Record Job := mkJob {
  job_task_id : string;
  job_request : CrawlRequest;
  job_phase : Phase
}.

(** Module-level configuration (lines 40-41) and global state (lines
    65-67): the task table, the coroutines of the event loop, and the value
    of [task_semaphore]. *)
Record Config := mkConfig {
  API_TOKEN : option string;
  MAX_CONCURRENT_TASKS : nat
}.

Record State := mkState {
  tasks : gmap string Task;
  jobs : list Job;
  permits : nat
}.

Definition init (cfg : Config) : State :=
  mkState ∅ [] (MAX_CONCURRENT_TASKS cfg).

Inductive Response :=
| RespTaskId (task_id : string)
| RespTask (t : Task)
| RespError (status_code : nat) (detail : string)
| NoResponse.

(** Python truthiness of an optional string and of an optional dict. *)
Definition truthy_str (o : option string) : bool :=
  match o with
  | Some (String _ _) => true
  | _ => false
  end.

Definition truthy_dict {A} (o : option (list A)) : bool :=
  match o with
  | Some (_ :: _) => true
  | _ => false
  end.

(** [verify_token], lines 69-73. *)
Definition verify_token (cfg : Config) (credentials : string) : bool :=
  if negb (truthy_str (API_TOKEN cfg)) then true
  else bool_decide (Some credentials = API_TOKEN cfg).

(** [crawl], lines 125-143.  [token] is the value of the dependency
    [Depends(verify_token)]; [uuid] is what [uuid.uuid4()] returns. *)
Definition crawl (request : CrawlRequest) (token : bool) (uuid : string)
    (st : State) : State * Response :=
  if use_llm request then
    (st, RespError 400 "LLM support is currently disabled")
  else
    let task_id := uuid in
    (mkState (<[task_id := pending_task]> (tasks st))
             (jobs st ++ [mkJob task_id request Waiting])
             (permits st),
     RespTaskId task_id).

(** [get_task_status], lines 145-156. *)
Definition get_task_status (task_id : string) (token : bool) (st : State)
    : Response :=
  match tasks st !! task_id with
  | None => RespError 404 "Task not found"
  | Some t => RespTask t
  end.

(** [process_crawl] up to its [await], lines 162-221: the URL, the capped
    timeout, the wait condition, the filter and the extraction strategy.
    The left injection is the text of the exception raised. *)
Definition first_url (u : Urls) : string + string :=
  match u with
  | UrlStr s => inr s
  | UrlList [] => inl "list index out of range"
  | UrlList (x :: _) => inr x
  end.

Definition select_filter (request : CrawlRequest) : option ContentFilter :=
  if bool_decide (content_filter request = "pruning") then
    Some PruningContentFilter
  else if bool_decide (content_filter request = "bm25")
          && truthy_str (search_query request) then
    Some (BM25ContentFilter (default "" (search_query request)))
  else None.

Definition run_config (request : CrawlRequest) : CrawlerRunConfig :=
  let page_timeout := Z.min (page_timeout request) 30000 in
  let wait_condition :=
    if bool_decide (wait_for request = "networkidle0")
    then "domcontentloaded" else wait_for request in
  mkRunConfig
    (select_filter request)
    (if extract_json request && truthy_dict (custom_schema request)
     then custom_schema request else None)
    wait_condition
    page_timeout.

Definition process_crawl_prepare (request : CrawlRequest)
    : string + (string * CrawlerRunConfig) :=
  match first_url (urls request) with
  | inl e => inl e
  | inr url => inr (url, run_config request)
  end.

(** [process_crawl] after the [await], lines 229-259: the one assignment
    to [tasks[task_id]].  Reading [.raw_markdown] of a [markdown_v2] that
    is present but [None] raises, and the handler of line 254 records the
    failure.  The reads of [start_time] and [raw_html] for the ["stats"]
    entry (lines 240-241) are taken not to raise. *)
Definition read_markdown (r : CrawlResult)
    : string + (option string * option string) :=
  match markdown_v2 r with
  | Absent => inr (None, None)
  | IsNone => inl "'NoneType' object has no attribute 'raw_markdown'"
  | Has md => inr (Some (raw_markdown md), fit_markdown md)
  end.

(** Line 247: [result.error_message if hasattr(...) else str(result)]. *)
Definition error_msg (r : CrawlResult) : option string :=
  match error_message r with
  | Absent => Some (repr r)
  | IsNone => None
  | Has msg => Some msg
  end.

Definition process_crawl_finish (request : CrawlRequest) (url : string)
    (o : Outcome) : Task :=
  match o with
  | Raised msg => failed_task (Some msg)
  | Returned r =>
      if success r then
        match read_markdown r with
        | inl e => failed_task (Some e)
        | inr (raw, fit) =>
            completed_task
              (mkPayload url raw fit
                 (if extract_json request then extracted_content r else None))
        end
      else
        failed_task (error_msg r)
  end.

Definition set_phase (j : nat) (ph : Phase) (js : list Job) : list Job :=
  alter (fun job => mkJob (job_task_id job) (job_request job) ph) j js.

(** What the event loop can do next: serve a request (every request that
    reaches the program carries bearer credentials, [HTTPBearer] answers
    the others itself), let the coroutine [j] enter the semaphore and run
    up to its [await], or resume it with the outcome of the render.  A
    coroutine may enter whenever a permit is free, in any order. *)
Inductive Event :=
| PostCrawl (credentials : string) (body : CrawlRequest) (uuid : string)
| GetTask (credentials : string) (task_id : string)
| WorkerStart (j : nat)
| WorkerSettle (j : nat) (o : Outcome).

Definition worker_start (j : nat) (st : State) : State :=
  match jobs st !! j with
  | Some (mkJob task_id request Waiting) =>
      match permits st with
      | O => st
      | S free =>
          match process_crawl_prepare request with
          | inl e =>
              mkState (<[task_id := failed_task (Some e)]> (tasks st))
                      (set_phase j Finished (jobs st))
                      (permits st)
          | inr (url, config) =>
              mkState (tasks st)
                      (set_phase j (Rendering url config) (jobs st))
                      free
          end
      end
  | _ => st
  end.

Definition worker_settle (j : nat) (o : Outcome) (st : State) : State :=
  match jobs st !! j with
  | Some (mkJob task_id request (Rendering url _)) =>
      mkState (<[task_id := process_crawl_finish request url o]> (tasks st))
              (set_phase j Finished (jobs st))
              (S (permits st))
  | _ => st
  end.

Definition step (cfg : Config) (st : State) (ev : Event) : State * Response :=
  match ev with
  | PostCrawl credentials body uuid =>
      if validate body then crawl body (verify_token cfg credentials) uuid st
      else (st, RespError 422 "Unprocessable Entity")
  | GetTask credentials task_id =>
      (st, get_task_status task_id (verify_token cfg credentials) st)
  | WorkerStart j => (worker_start j st, NoResponse)
  | WorkerSettle j o => (worker_settle j o st, NoResponse)
  end.

Fixpoint run (cfg : Config) (st : State) (evs : list Event) : State :=
  match evs with
  | [] => st
  | ev :: evs' => run cfg (step cfg st ev).1 evs'
  end.

Fixpoint responses (cfg : Config) (st : State) (evs : list Event)
    : list Response :=
  match evs with
  | [] => []
  | ev :: evs' => (step cfg st ev).2 :: responses cfg (step cfg st ev).1 evs'
  end.

(** *** Notions used to state the properties of the server *)

(** The states that a run goes through, the first one included. *)
Fixpoint states (cfg : Config) (st : State) (evs : list Event) : list State :=
  st :: match evs with
        | [] => []
        | ev :: evs' => states cfg (step cfg st ev).1 evs'
        end.

(** What a status query for [task_id] would show in each of these states. *)
Definition observed (task_id : string) (sts : list State)
    : list (option string) :=
  map (fun st => status <$> tasks st !! task_id) sts.

(** The identifiers that [uuid.uuid4()] hands out in a run: one for each
    submission that reaches line 137. *)
Definition drawn (ev : Event) : option string :=
  match ev with
  | PostCrawl _ body uuid =>
      if validate body && negb (use_llm body) then Some uuid else None
  | _ => None
  end.

Definition uuids_drawn (evs : list Event) : list string := omap drawn evs.

Definition terminal (t : Task) : Prop :=
  status t = "completed" \/ status t = "failed".

Definition has_result (t : Task) : Prop :=
  exists p, result t = Some (Some p).

Definition has_error (t : Task) : Prop :=
  exists msg, error t = Some msg.

(** The three dict literals that the code assigns to an entry. *)
Inductive task_shape : Task -> Prop :=
| shape_pending : task_shape pending_task
| shape_completed p : task_shape (completed_task p)
| shape_failed msg : task_shape (failed_task msg).

Definition well_shaped (st : State) : Prop :=
  forall id t, tasks st !! id = Some t -> task_shape t.

(** The identifiers of the coroutines, in order of creation; the table has
    an entry for each of them and for nothing else; the task of a
    coroutine that has not returned is pending. *)
Definition job_ids (st : State) : list string := job_task_id <$> jobs st.

Definition tracked (st : State) : Prop :=
  forall id, is_Some (tasks st !! id) <-> id ∈ job_ids st.

Definition live_pending (st : State) : Prop :=
  forall j job, jobs st !! j = Some job -> job_phase job <> Finished ->
    tasks st !! job_task_id job = Some pending_task.

(** *** Sample requests and runs *)

Definition example_request : CrawlRequest :=
  mkCrawlRequest (UrlStr "https://example.com") 10 false None None true
                 "pruning" "domcontentloaded" 30000.

Definition with_timeout (ms : Z) : CrawlRequest :=
  mkCrawlRequest (UrlStr "https://example.com") 10 false None None true
                 "pruning" "domcontentloaded" ms.

Definition with_urls (l : list string) : CrawlRequest :=
  mkCrawlRequest (UrlList l) 10 false None None true
                 "pruning" "domcontentloaded" 30000.

Definition secured : Config := mkConfig (Some "jeremy") 5.

Definition ok_result : CrawlResult :=
  mkCrawlResult true (Has (mkMd "# Example Domain" None)) None Absent "ok".

Definition ok_payload : Payload :=
  mkPayload "https://example.com" (Some "# Example Domain") None None.

Definition one_submission : list Event :=
  [PostCrawl "jeremy" example_request "id0"].

Definition short_run : list Event :=
  [PostCrawl "jeremy" example_request "id1"; WorkerStart 0;
   WorkerSettle 0 (Returned ok_result)].

Definition full_run : list Event :=
  [PostCrawl "jeremy" example_request "id1"; WorkerStart 0;
   GetTask "jeremy" "id1"; WorkerSettle 0 (Returned ok_result);
   PostCrawl "jeremy" (with_urls []) "id2"; WorkerStart 1;
   GetTask "jeremy" "id2"].

(** *** The rest of the server and of its command-line client *)

(** [health_check], lines 115-123. *)
Record Health := mkHealth {
  h_status : string;
  h_max_concurrent_tasks : nat;
  h_active_tasks : nat;
  h_llm_enabled : bool
}.

Definition health_check (cfg : Config) (st : State) : Health :=
  mkHealth "healthy" (MAX_CONCURRENT_TASKS cfg) (size (tasks st)) false.

(** The coroutines that are inside [async with task_semaphore]. *)
Definition is_rendering (ph : Phase) : bool :=
  match ph with
  | Rendering _ _ => true
  | _ => false
  end.

Fixpoint rendering (js : list Job) : nat :=
  match js with
  | [] => 0
  | job :: rest =>
      (if is_rendering (job_phase job) then 1 else 0) + rendering rest
  end.

(** How far a coroutine has come. *)
Definition phase_rank (ph : Phase) : nat :=
  match ph with
  | Waiting => 0
  | Rendering _ _ => 1
  | Finished => 2
  end.

(** What a coroutine of the event loop was created from and, while it
    renders, what it called the renderer with. *)
Definition job_ok (job : Job) : Prop :=
  validate (job_request job) = true /\
  use_llm (job_request job) = false /\
  match job_phase job with
  | Rendering url config =>
      first_url (urls (job_request job)) = inr url /\
      config = run_config (job_request job)
  | _ => True
  end.

(** The request that [main] of test_crawler.py builds from its arguments
    (lines 115-127); the key ["wait_for_images"] is not a field of
    [CrawlRequest] and is dropped by the server. *)
Definition cli_request (url : string) (timeout : Z) (wait_for : string)
    : CrawlRequest :=
  mkCrawlRequest (UrlStr url) 1 false None None false "pruning" wait_for
                 (Z.min timeout 30000).

(** Every completed entry of the table comes from a finished coroutine
    with the same identifier whose request starts with the URL of the
    result. *)
Definition completed_from_job (st : State) : Prop :=
  forall id p, tasks st !! id = Some (completed_task p) ->
    exists j job, jobs st !! j = Some job /\ job_task_id job = id /\
      job_phase job = Finished /\
      first_url (urls (job_request job)) = inr (p_url p).

Definition no_permits : Config := mkConfig None 0.

Definition one_waiting : State :=
  run secured (init secured) [PostCrawl "jeremy" example_request "id1"].

Definition start_and_settle : list Event :=
  [WorkerStart 0; GetTask "jeremy" "id1"; WorkerSettle 0 (Returned ok_result)].


End Server.

(** ** crawl_site.py *)

Module CrawlSite.

(** *** Strings as Python handles them *)

(** [str.lower] on ASCII letters. *)
Definition lower_ascii (c : ascii) : ascii :=
  let n := nat_of_ascii c in
  if (65 <=? n)%nat && (n <=? 90)%nat then ascii_of_nat (n + 32) else c.

Fixpoint lower (s : string) : string :=
  match s with
  | EmptyString => EmptyString
  | String c s' => String (lower_ascii c) (lower s')
  end.

(** [needle in hay] *)
Fixpoint contains (needle hay : string) : bool :=
  String.prefix needle hay ||
  match hay with
  | EmptyString => false
  | String _ hay' => contains needle hay'
  end.

(** [s.endswith(suffix)] *)
Definition endswith (s suffix : string) : bool :=
  let n := String.length s in
  let m := String.length suffix in
  (m <=? n)%nat && String.eqb (String.substring (n - m) m s) suffix.

(** [len(s.split())]: the number of maximal runs of non-blank characters. *)
Definition is_space (c : ascii) : bool :=
  let n := nat_of_ascii c in
  ((9 <=? n)%nat && (n <=? 13)%nat) || ((28 <=? n)%nat && (n <=? 32)%nat).

Fixpoint count_words (in_word : bool) (s : string) : nat :=
  match s with
  | EmptyString => 0
  | String c s' =>
      if is_space c then count_words false s'
      else if in_word then count_words true s'
      else S (count_words true s')
  end.

(** *** JSON values and Python dicts *)

#[warnings="-register-all"]
Inductive Json :=
| JNull
| JNum (n : Z)
| JStr (s : string)
| JList (l : list Json)
| JObj (fields : list (string * Json)).

(** [d.get(key, dflt)] *)
Definition get (d : gmap string Json) (key : string) (dflt : Json) : Json :=
  default dflt (d !! key).

(** *** Sitemap discovery, [get_sitemap_urls] (lines 60-108) *)

Definition sitemap_locations : list string :=
  ["/sitemap.xml"; "/sitemap_index.xml"; "/sitemap/sitemap.xml";
   "/wp-sitemap.xml"].

(** [loc.text and loc.text.endswith('.xml')]; the text of an empty element
    is [None]. *)
Definition is_xml (text : option string) : bool :=
  match text with
  | Some s => negb (String.eqb s "") && endswith s ".xml"
  | None => false
  end.

Section Sitemap.

(** [urllib.parse.urljoin]. *)
Variable urljoin : string -> string -> string.

(** [requests.get], [raise_for_status], [ElementTree.fromstring] and
    [findall('.//ns:loc')] in one: the texts of the [loc] elements of the
    document at a URL, or [None] when any of these raises. *)
Variable fetch : string -> option (list (option string)).

(** Lines 87-95: the inner loop over the entries of a sitemap index. *)
Fixpoint fetch_sub_sitemaps (sitemaps : list (option string))
    (urls : gset (option string)) : gset (option string) :=
  match sitemaps with
  | [] => urls
  | sitemap :: rest =>
      if is_xml sitemap then
        match fetch (default "" sitemap) with
        | Some sub_locs =>
            fetch_sub_sitemaps rest (urls ∪ list_to_set sub_locs)
        | None => fetch_sub_sitemaps rest urls
        end
      else fetch_sub_sitemaps rest urls
  end.

(** Lines 83-98: what one parsed candidate adds to [urls]. *)
Definition collect (sitemaps : list (option string))
    (urls : gset (option string)) : gset (option string) :=
  if existsb is_xml sitemaps then fetch_sub_sitemaps sitemaps urls
  else urls ∪ list_to_set sitemaps.

(** Lines 72-106: the loop over the candidate locations, left at the first
    candidate after which [urls] is not empty. *)
Fixpoint try_locations (base_url : string) (locations : list string)
    (urls : gset (option string)) : gset (option string) :=
  match locations with
  | [] => urls
  | sitemap_path :: rest =>
      let sitemap_url := urljoin base_url sitemap_path in
      match fetch sitemap_url with
      | Some sitemaps =>
          let urls' := collect sitemaps urls in
          if bool_decide (urls' = ∅) then try_locations base_url rest urls'
          else urls'
      | None => try_locations base_url rest urls
      end
  end.

(** The returned [list(urls)] enumerates this set in no specified order. *)
Definition get_sitemap_urls (base_url : string) : gset (option string) :=
  try_locations base_url sitemap_locations ∅.

End Sitemap.

(** *** The result sink, [save_batch_results] (lines 117-157) *)

(** The two files of the output directory that the function appends to;
    a line is the JSON value that [json.dumps] prints.  The timestamp that
    each record carries is read from the clock and is not part of the
    model; opening and writing the files is taken to succeed. *)
Record Files := mkFiles {
  results_file : list Json;
  errors_file : list Json
}.

Definition content_record (url : Json) (result : gmap string Json) : Json :=
  JObj [("url", url);
        ("content",
          JObj [("title", get result "title" (JStr ""));
                ("raw_markdown", get result "raw_markdown" (JStr ""));
                ("fit_markdown", get result "fit_markdown" (JStr ""));
                ("summary", get result "summary" (JStr ""));
                ("references", get result "references" (JList []))]);
        ("metadata",
          JObj [("date", get result "date" (JStr ""));
                ("author", get result "author" (JStr ""));
                ("categories", get result "categories" (JList []));
                ("tags", get result "tags" (JList []));
                ("word_count", get result "word_count" (JNum 0));
                ("relevance_score", get result "relevance_score" (JNum 0))]);
        ("links", get result "links" (JObj []))].

Definition error_entry (url : Json) (err : Json) : Json :=
  JObj [("url", url); ("error", err)].

(** One iteration of the loop of line 124.  [result["url"]] raises
    [KeyError] on a dict without that key. *)
Definition save_one (result : gmap string Json) (fs : Files)
    : Files * option string :=
  match result !! "url" with
  | None => (fs, Some "KeyError: 'url'")
  | Some url =>
      let fs1 :=
        mkFiles (results_file fs ++ [content_record url result])
                (errors_file fs) in
      match result !! "error" with
      | Some err =>
          (mkFiles (results_file fs1)
                   (errors_file fs1 ++ [error_entry url err]), None)
      | None => (fs1, None)
      end
  end.

(** The files after the call, and the exception that ended it, if any. *)
Fixpoint save_batch_results (results : list (gmap string Json)) (fs : Files)
    : Files * option string :=
  match results with
  | [] => (fs, None)
  | result :: rest =>
      match save_one result fs with
      | (fs', Some e) => (fs', Some e)
      | (fs', None) => save_batch_results rest fs'
      end
  end.

(** *** The batch coordinator, [crawl_parallel] (lines 159-284) *)

Record MdResult := mkMd {
  raw_markdown : string;
  fit_markdown : option string
}.

(** The renderer's CrawlResult as the coordinator reads it.
    [extracted_content] is [Some d] when it is a dict [d]; [markdown_v2] is
    what [getattr(result, 'markdown_v2', None)] gives. *)
Record CrawlResult := mkCrawlResult {
  success : bool;
  error_message : string;
  extracted_content : option (gmap string Json);
  markdown_v2 : option MdResult
}.

(** An element of the list that [asyncio.gather(..., return_exceptions=True)]
    returns: a result, or the exception with its [str]. *)
Inductive Outcome :=
| Returned (r : CrawlResult)
| Raised (msg : string).

Record Stats := mkStats {
  st_success : nat;
  st_failed : nat;
  st_timeout : nat;
  st_error : nat
}.

Definition stats0 : Stats := mkStats 0 0 0 0.

Definition opt_json (o : option string) : Json :=
  match o with
  | Some s => JStr s
  | None => JNull
  end.

(** The body of the [try] of lines 245-267.  On a CrawlResult of the
    renderer's types none of its statements raises, so the value is always
    on the right; the left injection is what the handler of line 268
    would receive. *)
Definition result_dict (url : string) (r : CrawlResult)
    : string + gmap string Json :=
  let content := default ∅ (extracted_content r) in
  let md_result := markdown_v2 r in
  inr (list_to_map
    [("url", JStr url);
     ("raw_markdown",
       match md_result with Some md => JStr (raw_markdown md) | None => JStr "" end);
     ("fit_markdown",
       match md_result with Some md => opt_json (fit_markdown md) | None => JStr "" end);
     ("title", get content "title" (JStr ""));
     ("date", get content "date" (JStr ""));
     ("categories", get content "categories" (JList []));
     ("tags", get content "tags" (JList []));
     ("word_count",
       match md_result with
       | Some md => JNum (Z.of_nat (count_words false (raw_markdown md)))
       | None => JNum 0
       end)]).

Global Arguments result_dict : simpl never.

(** Lines 235-273: one iteration of the loop over [zip(batch, results)],
    on the counters and on [batch_results]. *)
Definition settle (url : string) (o : Outcome)
    (acc : Stats * list (gmap string Json)) : Stats * list (gmap string Json) :=
  let '(stats, batch_results) := acc in
  match o with
  | Raised msg =>
      if contains "timeout" (lower msg) then
        (mkStats (st_success stats) (st_failed stats)
                 (S (st_timeout stats)) (st_error stats), batch_results)
      else
        (mkStats (st_success stats) (st_failed stats)
                 (st_timeout stats) (S (st_error stats)), batch_results)
  | Returned r =>
      if success r then
        match result_dict url r with
        | inr d =>
            (mkStats (S (st_success stats)) (st_failed stats)
                     (st_timeout stats) (st_error stats),
             batch_results ++ [d])
        | inl _ =>
            (mkStats (st_success stats) (st_failed stats)
                     (st_timeout stats) (S (st_error stats)), batch_results)
        end
      else
        (mkStats (st_success stats) (S (st_failed stats))
                 (st_timeout stats) (st_error stats), batch_results)
  end.

(** [range(0, n, k)] for [k > 0]; [n] steps are always enough. *)
Fixpoint range_from (fuel start stop k : nat) : list nat :=
  match fuel with
  | O => []
  | S fuel' =>
      if (start <? stop)%nat then start :: range_from fuel' (start + k) stop k
      else []
  end.

Definition py_range (n : nat) (k : Z) : string + list nat :=
  if (k =? 0)%Z then inl "range() arg 3 must not be zero"
  else if (k <? 0)%Z then inr []
  else inr (range_from n 0 n (Z.to_nat k)).

(** [urls[i:i + k]] for [k >= 0] *)
Definition slice (urls : list string) (i k : nat) : list string :=
  take k (drop i urls).

(** The batches that the loop of line 219 goes through, each with its
    start index; [range] raises on a zero step. *)
Definition batches (urls : list string) (max_concurrent : Z)
    : string + list (nat * list string) :=
  match py_range (length urls) max_concurrent with
  | inl e => inl e
  | inr starts =>
      inr (map (fun i => (i, slice urls i (Z.to_nat max_concurrent))) starts)
  end.

Section Coordinator.

(** [arun i url]: how the crawl of [url] in session [session_i] settles. *)
Variable arun : nat -> string -> Outcome.

(** Lines 224-273 for one batch starting at index [i]. *)
Fixpoint settle_batch (i : nat) (batch : list string)
    (acc : Stats * list (gmap string Json)) : Stats * list (gmap string Json) :=
  match batch with
  | [] => acc
  | url :: rest => settle_batch (S i) rest (settle url (arun i url) acc)
  end.

(** Lines 219-279: the loop over the batches.  An exception of the sink
    leaves the loop; the counters are then not returned. *)
Fixpoint run_batches (bs : list (nat * list string)) (stats : Stats)
    (fs : Files) : Files * (string + Stats) :=
  match bs with
  | [] => (fs, inr stats)
  | (i, batch) :: rest =>
      let '(stats', batch_results) := settle_batch i batch (stats, []) in
      match batch_results with
      | [] => run_batches rest stats' fs
      | _ :: _ =>
          match save_batch_results batch_results fs with
          | (fs', Some e) => (fs', inl e)
          | (fs', None) => run_batches rest stats' fs'
          end
      end
  end.

Definition crawl_parallel (urls : list string) (fs : Files)
    (max_concurrent : Z) : Files * (string + Stats) :=
  match batches urls max_concurrent with
  | inl e => (fs, inl e)
  | inr bs => run_batches bs stats0 fs
  end.

End Coordinator.

(** *** Notions used to state the properties of the coordinator *)

Definition total (stats : Stats) : nat :=
  st_success stats + st_failed stats + st_timeout stats + st_error stats.

(** The number of batches announced for [n] URLs in batches of [k]. *)
Definition ceil_div (n k : nat) : nat := (n + k - 1) / k.

(** The four classes of a settled outcome, and the class that the
    description of the coordinator gives to each outcome: an exception
    whose message speaks of a timeout, any other exception, a result that
    reports no success, a result that reports success. *)
Inductive Category := Success | Failed | Timeout | Error.

Global Instance Category_eq_dec : EqDecision Category.
Proof. solve_decision. Defined.

Definition indicates_timeout (msg : string) : bool :=
  contains "timeout" (lower msg).

Definition category_of (o : Outcome) : Category :=
  match o with
  | Raised msg => if indicates_timeout msg then Timeout else Error
  | Returned r => if success r then Success else Failed
  end.

Definition counter (c : Category) (stats : Stats) : nat :=
  match c with
  | Success => st_success stats
  | Failed => st_failed stats
  | Timeout => st_timeout stats
  | Error => st_error stats
  end.

(** The leaf URLs behind the [.xml] entries of a sitemap index: the union,
    over the entries that end in [.xml] and can be fetched, of their [loc]
    texts. *)
Definition leaves_of (fetch : string -> option (list (option string)))
    (sitemap : option string) : gset (option string) :=
  if is_xml sitemap then
    match fetch (default "" sitemap) with
    | Some sub_locs => list_to_set sub_locs
    | None => ∅
    end
  else ∅.

Definition leaf_union (fetch : string -> option (list (option string)))
    (sitemaps : list (option string)) : gset (option string) :=
  ⋃ (map (leaves_of fetch) sitemaps).

(** What a candidate with the given [loc] texts yields. *)
Definition found (fetch : string -> option (list (option string)))
    (sitemaps : list (option string)) : gset (option string) :=
  if existsb is_xml sitemaps then leaf_union fetch sitemaps
  else list_to_set sitemaps.

(** What the sink needs of a dict, and what the coordinator's dicts lack. *)
Definition has_url (d : gmap string Json) : Prop := is_Some (d !! "url").
Definition no_error (d : gmap string Json) : Prop := d !! "error" = None.

(** A candidate location that adds no URL: it cannot be fetched or parsed,
    or what it yields is empty. *)
Definition yields_nothing (urljoin : string -> string -> string)
    (fetch : string -> option (list (option string)))
    (base_url sitemap_path : string) : Prop :=
  match fetch (urljoin base_url sitemap_path) with
  | Some sitemaps => found fetch sitemaps = ∅
  | None => True
  end.

(** *** Sample outcomes and sitemaps *)

Definition unresolved : CrawlResult :=
  mkCrawlResult false "net::ERR_NAME_NOT_RESOLVED" None None.

Definition sample_arun (i : nat) (url : string) : Outcome :=
  if String.eqb url "a" then Raised "Page.goto: Timeout 30000ms exceeded"
  else if String.eqb url "b" then Returned unresolved
  else if String.eqb url "c" then Raised "net::ERR_CONNECTION_RESET"
  else Returned (mkCrawlResult true "" None (Some (mkMd "# Title and text" None))).

Definition sample_index : list (option string) :=
  [Some "https://site.example/posts.xml"; Some "https://site.example/about";
   Some "https://site.example/pages.xml"].

Definition sample_fetch (url : string) : option (list (option string)) :=
  if String.eqb url "https://site.example/sitemap_index.xml" then
    Some sample_index
  else if String.eqb url "https://site.example/posts.xml" then
    Some [Some "https://site.example/p1"; Some "https://site.example/p2"]
  else if String.eqb url "https://site.example/pages.xml" then
    Some [Some "https://site.example/p2"; Some "https://site.example/contact"]
  else None.

(** *** Notions used to state further properties of the bulk crawler *)

(** The line that the sink writes to the results log for a dict, and the
    line it writes to the errors log for a dict with an ["error"] key. *)
Definition line_of (d : gmap string Json) : Json :=
  content_record (default JNull (d !! "url")) d.

Definition error_line_of (d : gmap string Json) : option Json :=
  match d !! "error" with
  | Some err => Some (error_entry (default JNull (d !! "url")) err)
  | None => None
  end.

(** The value of a key of a JSON object. *)
Fixpoint assoc (key : string) (fields : list (string * Json)) : option Json :=
  match fields with
  | [] => None
  | (k, v) :: rest => if String.eqb k key then Some v else assoc key rest
  end.

Definition field (key : string) (j : Json) : option Json :=
  match j with
  | JObj fields => assoc key fields
  | _ => None
  end.

(** Among the URLs crawled in sessions [i], [i+1], ...: how many settle in
    a class, and which ones return a result with success. *)
Fixpoint tally (arun : nat -> string -> Outcome) (c : Category) (i : nat)
    (urls : list string) : nat :=
  match urls with
  | [] => 0
  | url :: rest =>
      (if decide (category_of (arun i url) = c) then 1 else 0)
      + tally arun c (S i) rest
  end.

Fixpoint successes (arun : nat -> string -> Outcome) (i : nat)
    (urls : list string) : list string :=
  match urls with
  | [] => []
  | url :: rest =>
      match arun i url with
      | Returned r =>
          if success r then url :: successes arun (S i) rest
          else successes arun (S i) rest
      | Raised _ => successes arun (S i) rest
      end
  end.

(** *** Sample dicts *)

Definition sample_ok_dict : gmap string Json :=
  list_to_map [("url", JStr "https://a.example"); ("title", JStr "A")].

Definition sample_error_dict : gmap string Json :=
  list_to_map [("url", JStr "https://b.example"); ("error", JStr "boom")].

Definition sample_bad_dict : gmap string Json :=
  list_to_map [("title", JStr "no url")].

Definition seven_urls : list string := ["a"; "b"; "c"; "d"; "e"; "f"; "g"].

(** *** The classes and the sitemap policy in words of their own *)

(** A character that is a given lower-case letter or its capital. *)
Definition same_letter (c d : ascii) : Prop :=
  c = d \/
  (65 <= nat_of_ascii c <= 90 /\ nat_of_ascii d = nat_of_ascii c + 32).

(** A word that spells a lower-case pattern in any mixture of case. *)
Fixpoint spells (w pattern : string) : Prop :=
  match w, pattern with
  | EmptyString, EmptyString => True
  | String c w', String d pattern' => same_letter c d /\ spells w' pattern'
  | _, _ => False
  end.

(** A message that speaks of a timeout. *)
Definition says_timeout (msg : string) : Prop :=
  exists pre w post, msg = pre +:+ w +:+ post /\ spells w "timeout".

(** How many of the URLs crawled in sessions [i], [i+1], ... settle with an
    outcome of a given kind. *)
Definition returned_success (o : Outcome) : bool :=
  match o with Returned r => success r | Raised _ => false end.

Definition returned_failure (o : Outcome) : bool :=
  match o with Returned r => negb (success r) | Raised _ => false end.

Definition raised (o : Outcome) : bool :=
  match o with Returned _ => false | Raised _ => true end.

Fixpoint count_outcomes (kind : Outcome -> bool)
    (arun : nat -> string -> Outcome) (i : nat) (urls : list string) : nat :=
  match urls with
  | [] => 0
  | url :: rest =>
      (if kind (arun i url) then 1 else 0) + count_outcomes kind arun (S i) rest
  end.

(** A sitemap file with an entry whose text ends in [.xml]; the URLs named
    by the documents behind such entries; what a file yields under the
    policy that one such entry makes the whole file an index. *)
Definition has_xml_entry (sitemaps : list (option string)) : Prop :=
  exists pre, Some (pre +:+ ".xml") ∈ sitemaps.

Definition leaf_of (fetch : string -> option (list (option string)))
    (sitemaps : list (option string)) (u : option string) : Prop :=
  exists pre sub,
    Some (pre +:+ ".xml") ∈ sitemaps /\
    fetch (pre +:+ ".xml") = Some sub /\ u ∈ sub.

Definition yields (fetch : string -> option (list (option string)))
    (sitemaps : list (option string)) (u : option string) : Prop :=
  (has_xml_entry sitemaps /\ leaf_of fetch sitemaps u) \/
  (~ has_xml_entry sitemaps /\ u ∈ sitemaps).

(** A candidate location that cannot be fetched or parsed, or yields no
    URL. *)
Definition silent (urljoin : string -> string -> string)
    (fetch : string -> option (list (option string)))
    (base_url sitemap_path : string) : Prop :=
  match fetch (urljoin base_url sitemap_path) with
  | Some sitemaps => forall u, ~ yields fetch sitemaps u
  | None => True
  end.

End CrawlSite.
(** * Properties of the server *)

Module ServerFacts.
Import Server.


(** ** Runs *)

Lemma run_app cfg st evs1 evs2 :
  run cfg st (evs1 ++ evs2) = run cfg (run cfg st evs1) evs2.
Proof.
  revert st. induction evs1 as [|ev evs1 IH]; intros st; simpl; [done|].
  apply IH.
Qed.

Lemma run_snoc cfg st evs ev :
  run cfg st (evs ++ [ev]) = (step cfg (run cfg st evs) ev).1.
Proof. by rewrite run_app. Qed.

Lemma states_snoc cfg st evs ev :
  states cfg st (evs ++ [ev]) = states cfg st evs ++ [run cfg st (evs ++ [ev])].
Proof.
  revert st. induction evs as [|e evs IH]; intros st; simpl; [done|].
  by rewrite IH.
Qed.

Lemma observed_snoc cfg st evs ev id :
  observed id (states cfg st (evs ++ [ev])) =
  observed id (states cfg st evs) ++
  [status <$> tasks (run cfg st (evs ++ [ev])) !! id].
Proof. unfold observed. by rewrite states_snoc, map_app. Qed.

Lemma uuids_drawn_snoc evs ev :
  uuids_drawn (evs ++ [ev]) = uuids_drawn evs ++ option_list (drawn ev).
Proof.
  unfold uuids_drawn. rewrite omap_app. simpl. by destruct (drawn ev).
Qed.

(** ** The shape of the entries of the task table *)

Lemma finish_shape request url o :
  (exists p, process_crawl_finish request url o = completed_task p) \/
  (exists msg, process_crawl_finish request url o = failed_task msg).
Proof.
  unfold process_crawl_finish.
  destruct o as [r|msg]; [|eauto].
  destruct (success r); [|eauto].
  destruct (read_markdown r) as [e|[raw fit]]; eauto.
Qed.

Lemma finish_task_shape request url o :
  task_shape (process_crawl_finish request url o).
Proof.
  destruct (finish_shape request url o) as [[p ->]|[msg ->]]; constructor.
Qed.

Lemma finish_not_pending request url o :
  process_crawl_finish request url o <> pending_task.
Proof.
  destruct (finish_shape request url o) as [[p ->]|[msg ->]]; discriminate.
Qed.

Lemma insert_shape (m : gmap string Task) id t :
  task_shape t ->
  (forall i x, m !! i = Some x -> task_shape x) ->
  forall i x, <[id := t]> m !! i = Some x -> task_shape x.
Proof.
  intros Ht Hm i x. rewrite lookup_insert. case_decide; [|by apply Hm].
  by intros [= <-].
Qed.

Lemma step_shape cfg st ev :
  well_shaped st -> well_shaped (step cfg st ev).1.
Proof.
  intros Hst. destruct ev as [c body u|c id|j|j o]; simpl.
  - destruct (validate body); [|done]. unfold crawl.
    destruct (use_llm body); [done|]. unfold well_shaped; simpl.
    apply insert_shape; [constructor|done].
  - done.
  - unfold worker_start.
    destruct (jobs st !! j) as [[tid rq [| |]]|]; try done.
    destruct (permits st); [done|].
    destruct (process_crawl_prepare rq) as [e|[url c]]; [|done].
    unfold well_shaped; simpl. apply insert_shape; [constructor|done].
  - unfold worker_settle.
    destruct (jobs st !! j) as [[tid rq [|url c|]]|]; try done.
    unfold well_shaped; simpl. apply insert_shape; [apply finish_task_shape|done].
Qed.

Lemma run_shape cfg st evs :
  well_shaped st -> well_shaped (run cfg st evs).
Proof.
  revert st. induction evs as [|ev evs IH]; intros st Hst; simpl; [done|].
  by apply IH, step_shape.
Qed.

Lemma init_shape cfg : well_shaped (init cfg).
Proof. intros id t. unfold init; simpl. by rewrite lookup_empty. Qed.


(** ** The coroutines and the table *)

Lemma set_phase_ids j ph js :
  job_task_id <$> set_phase j ph js = job_task_id <$> js.
Proof.
  unfold set_phase. revert j.
  induction js as [|job js IH]; intros [|j]; csimpl; try done.
  f_equal. apply IH.
Qed.

Lemma set_phase_lookup j ph js i job :
  set_phase j ph js !! i = Some job ->
  (i = j /\ job_phase job = ph /\
     exists old, js !! j = Some old /\ job_task_id job = job_task_id old /\
                 job_request job = job_request old) \/
  (i <> j /\ js !! i = Some job).
Proof.
  unfold set_phase. destruct (decide (i = j)) as [->|Hne].
  - rewrite list_lookup_alter_eq.
    destruct (js !! j) as [old|] eqn:Hold; simpl; [|done].
    intros [= <-]. left. simpl. eauto 10.
  - rewrite list_lookup_alter_ne by done. eauto.
Qed.

Lemma job_id_elem st j job :
  jobs st !! j = Some job -> job_task_id job ∈ job_ids st.
Proof.
  intros H. unfold job_ids. apply list_elem_of_fmap.
  exists job. split; [done|]. by eapply list_elem_of_lookup_2.
Qed.

Lemma job_ids_distinct st i j a b :
  NoDup (job_ids st) -> jobs st !! i = Some a -> jobs st !! j = Some b ->
  job_task_id a = job_task_id b -> i = j.
Proof.
  intros Hnd Ha Hb Heq.
  apply (NoDup_lookup (job_ids st) i j (job_task_id a)); [done| |];
    unfold job_ids; rewrite list_lookup_fmap.
  - by rewrite Ha.
  - by rewrite Hb, Heq.
Qed.

Lemma step_job_ids cfg st ev :
  job_ids (step cfg st ev).1 = job_ids st ++ option_list (drawn ev).
Proof.
  unfold job_ids. destruct ev as [c body u|c id|j|j o]; simpl.
  - destruct (validate body); simpl; [|by rewrite app_nil_r].
    unfold crawl. destruct (use_llm body); simpl; [by rewrite app_nil_r|].
    by rewrite fmap_app.
  - by rewrite app_nil_r.
  - rewrite app_nil_r. unfold worker_start.
    destruct (jobs st !! j) as [[tid rq [| |]]|]; try done.
    destruct (permits st); [done|].
    destruct (process_crawl_prepare rq) as [e|[url c]]; simpl;
      apply set_phase_ids.
  - rewrite app_nil_r. unfold worker_settle.
    destruct (jobs st !! j) as [[tid rq [|url c|]]|]; try done.
    simpl. apply set_phase_ids.
Qed.

Lemma insert_known (m : gmap string Task) id t i :
  is_Some (m !! id) -> is_Some (<[id := t]> m !! i) <-> is_Some (m !! i).
Proof.
  intros Hid. rewrite lookup_insert_is_Some. split.
  - intros [<-|[_ H]]; done.
  - intros H. destruct (decide (id = i)); eauto.
Qed.

Lemma step_tracked cfg st ev :
  tracked st -> tracked (step cfg st ev).1.
Proof.
  intros Hst id. rewrite step_job_ids.
  destruct ev as [c body u|c tid|j|j o]; simpl.
  - destruct (validate body); simpl; [|by rewrite app_nil_r].
    unfold crawl. destruct (use_llm body); simpl; [by rewrite app_nil_r|].
    rewrite lookup_insert_is_Some, elem_of_app, list_elem_of_singleton, (Hst id).
    destruct (decide (u = id)); intuition congruence.
  - by rewrite app_nil_r.
  - rewrite app_nil_r. unfold worker_start.
    destruct (jobs st !! j) as [[tid rq [| |]]|] eqn:Hj; try done.
    destruct (permits st); [done|].
    destruct (process_crawl_prepare rq) as [e|[url c]]; simpl; [|done].
    rewrite insert_known; [done|].
    apply Hst. by apply (job_id_elem st j _ Hj).
  - rewrite app_nil_r. unfold worker_settle.
    destruct (jobs st !! j) as [[tid rq [|url c|]]|] eqn:Hj; try done.
    simpl. rewrite insert_known; [done|].
    apply Hst. by apply (job_id_elem st j _ Hj).
Qed.

Lemma step_live cfg st ev :
  NoDup (job_ids st) -> live_pending st -> live_pending (step cfg st ev).1.
Proof.
  intros Hnd Hst. destruct ev as [c body u|c tid|j|j o]; simpl.
  - destruct (validate body); [|done]. unfold crawl.
    destruct (use_llm body); [done|]. intros i job; simpl.
    rewrite lookup_snoc_Some, lookup_insert.
    intros [[_ Hi]|[_ <-]] Hph; simpl.
    + case_decide; [done|]. by eapply Hst.
    + by rewrite decide_True.
  - done.
  - unfold worker_start.
    destruct (jobs st !! j) as [[tid rq [| |]]|] eqn:Hj; try done.
    destruct (permits st); [done|].
    destruct (process_crawl_prepare rq) as [e|[url c]];
      intros i job; simpl; intros Hi Hph;
      apply set_phase_lookup in Hi
        as [(-> & Hp & old & Hold & Hid & _)|[Hne Hi]].
    + congruence.
    + rewrite lookup_insert_ne; [by eapply Hst|].
      intros Heq. apply Hne. symmetry.
      by apply (job_ids_distinct st j i _ _ Hnd Hj Hi).
    + rewrite Hid. by apply (Hst j old); [|rewrite Hj in Hold; by injection Hold as <-].
    + by eapply Hst.
  - unfold worker_settle.
    destruct (jobs st !! j) as [[tid rq [|url c|]]|] eqn:Hj; try done.
    intros i job; simpl; intros Hi Hph.
    apply set_phase_lookup in Hi
      as [(-> & Hp & old & Hold & Hid & _)|[Hne Hi]]; [congruence|].
    rewrite lookup_insert_ne; [by eapply Hst|].
    intros Heq. apply Hne. symmetry.
    by apply (job_ids_distinct st j i _ _ Hnd Hj Hi).
Qed.

(** A step leaves every entry that is not pending as it is, when the
    identifier it draws is not yet in the table. *)
Lemma step_stable cfg st ev id t :
  live_pending st ->
  (forall u, drawn ev = Some u -> tasks st !! u = None) ->
  tasks st !! id = Some t -> t <> pending_task ->
  tasks (step cfg st ev).1 !! id = Some t.
Proof.
  intros Hst Hfresh Hid Ht. destruct ev as [c body u|c tid|j|j o]; simpl.
  - simpl in Hfresh. destruct (validate body); [|done]. unfold crawl.
    destruct (use_llm body); [done|]. simpl.
    rewrite lookup_insert_ne; [done|].
    intros ->. rewrite (Hfresh id) in Hid; done.
  - done.
  - unfold worker_start.
    destruct (jobs st !! j) as [[tid rq [| |]]|] eqn:Hj; try done.
    destruct (permits st); [done|].
    destruct (process_crawl_prepare rq) as [e|[url c]]; simpl; [|done].
    rewrite lookup_insert_ne; [done|].
    intros ->. specialize (Hst j _ Hj). simpl in Hst.
    rewrite Hst in Hid by done. congruence.
  - unfold worker_settle.
    destruct (jobs st !! j) as [[tid rq [|url c|]]|] eqn:Hj; try done.
    simpl. rewrite lookup_insert_ne; [done|].
    intros ->. specialize (Hst j _ Hj). simpl in Hst.
    rewrite Hst in Hid by done. congruence.
Qed.

(** ** Reachable states *)

Lemma reach_job_ids cfg evs :
  job_ids (run cfg (init cfg) evs) = uuids_drawn evs.
Proof.
  induction evs as [|ev evs IH] using rev_ind; [done|].
  by rewrite run_snoc, step_job_ids, IH, uuids_drawn_snoc.
Qed.

Lemma reach_tracked cfg evs : tracked (run cfg (init cfg) evs).
Proof.
  induction evs as [|ev evs IH] using rev_ind.
  - intros id. unfold job_ids; simpl. rewrite lookup_empty.
    split; [by intros [? ?]|by intros ?%elem_of_nil].
  - rewrite run_snoc. by apply step_tracked.
Qed.

Lemma reach_live cfg evs :
  NoDup (uuids_drawn evs) -> live_pending (run cfg (init cfg) evs).
Proof.
  induction evs as [|ev evs IH] using rev_ind; intros Hnd.
  - intros j job. simpl. by rewrite lookup_nil.
  - rewrite uuids_drawn_snoc in Hnd. apply NoDup_app in Hnd as (Hnd & _ & _).
    rewrite run_snoc. apply step_live; [by rewrite reach_job_ids|by apply IH].
Qed.

Lemma reach_fresh cfg evs ev u :
  NoDup (uuids_drawn (evs ++ [ev])) -> drawn ev = Some u ->
  tasks (run cfg (init cfg) evs) !! u = None.
Proof.
  rewrite uuids_drawn_snoc. intros (_ & Hnew & _)%NoDup_app Hev.
  rewrite Hev in Hnew. simpl in Hnew.
  apply eq_None_not_Some. intros Hin%reach_tracked.
  rewrite reach_job_ids in Hin. apply (Hnew u Hin). by apply list_elem_of_singleton.
Qed.

(** ** Authentication *)

(** C1 (the code departs from the claim): with the secret "jeremy"
    configured, a submission and a status query that carry the bearer token
    "wrong" are both served.  [verify_token] answers [False], the handlers
    receive that value as [token] and never look at it: the task is
    created, its identifier is returned, and the query shows the task. *)
Theorem wrong_token_is_served :
  verify_token secured "wrong" = false /\
  step secured (init secured) (PostCrawl "wrong" example_request "id1") =
    (mkState {["id1" := pending_task]}
             [mkJob "id1" example_request Waiting] 5,
     RespTaskId "id1") /\
  responses secured (init secured)
    [PostCrawl "wrong" example_request "id1"; GetTask "wrong" "id1"] =
    [RespTaskId "id1"; RespTask pending_task].
Proof. repeat split. Qed.

(** The handlers do not depend on the value of the dependency at all. *)
Lemma crawl_ignores_token request uuid st :
  crawl request false uuid st = crawl request true uuid st.
Proof. reflexivity. Qed.

Lemma get_task_status_ignores_token task_id st :
  get_task_status task_id false st = get_task_status task_id true st.
Proof. reflexivity. Qed.

(** In open mode [verify_token] accepts any credentials. *)
Lemma verify_token_open n credentials :
  verify_token (mkConfig None n) credentials = true.
Proof. reflexivity. Qed.

Lemma verify_token_secret cfg secret credentials :
  API_TOKEN cfg = Some secret -> secret <> "" ->
  verify_token cfg credentials = bool_decide (credentials = secret).
Proof.
  intros H Hne. unfold verify_token. rewrite H.
  destruct secret as [|a s]; [done|]. simpl.
  apply bool_decide_ext. split; congruence.
Qed.



(** ** Submission *)

Lemma step_keeps_waiting cfg st ev k id rq :
  jobs st !! k = Some (mkJob id rq Waiting) -> ev <> WorkerStart k ->
  jobs (step cfg st ev).1 !! k = Some (mkJob id rq Waiting).
Proof.
  intros Hk Hev. destruct ev as [c body u|c tid|j|j o]; simpl.
  - destruct (validate body); [|done]. unfold crawl.
    destruct (use_llm body); [done|]. simpl.
    rewrite lookup_app_l; [done|]. by eapply lookup_lt_Some.
  - done.
  - assert (j <> k) as Hjk by congruence. unfold worker_start.
    destruct (jobs st !! j) as [[tid r [| |]]|]; try done.
    destruct (permits st); [done|].
    destruct (process_crawl_prepare r) as [e|[url c]]; simpl;
      unfold set_phase; by rewrite list_lookup_alter_ne.
  - unfold worker_settle. destruct (decide (j = k)) as [->|Hjk].
    + by rewrite Hk.
    + destruct (jobs st !! j) as [[tid r [|url c|]]|]; try done.
      simpl. unfold set_phase. by rewrite list_lookup_alter_ne.
Qed.

Lemma run_keeps_waiting cfg st evs k id rq :
  jobs st !! k = Some (mkJob id rq Waiting) -> WorkerStart k ∉ evs ->
  jobs (run cfg st evs) !! k = Some (mkJob id rq Waiting).
Proof.
  revert st. induction evs as [|ev evs IH]; intros st Hk Hno; simpl; [done|].
  apply not_elem_of_cons in Hno as [Hev Hno].
  apply IH; [|done]. apply step_keeps_waiting; [done|congruence].
Qed.

(** Under pairwise distinct values of [uuid4]: a submission that asks for
    the LLM is refused with the client
    error 400 and leaves the state as it was.  Any other submission returns
    the identifier drawn from [uuid4], which is not yet in the table and
    differs from every identifier drawn before (identifiers drawn by
    [uuid4] being pairwise distinct), stores a pending task under it and
    queues its worker; until that worker starts, every status query for the
    identifier returns the pending task. *)
Theorem submit_creates_pending_task cfg evs credentials body uuid :
  validate body = true ->
  NoDup (uuids_drawn (evs ++ [PostCrawl credentials body uuid])) ->
  let st := run cfg (init cfg) evs in
  let sub := step cfg st (PostCrawl credentials body uuid) in
  if use_llm body then
    sub = (st, RespError 400 "LLM support is currently disabled")
  else
    sub.2 = RespTaskId uuid /\
    tasks st !! uuid = None /\
    (uuid ∉ uuids_drawn evs) /\
    tasks sub.1 = <[uuid := pending_task]> (tasks st) /\
    jobs sub.1 = jobs st ++ [mkJob uuid body Waiting] /\
    forall later c,
      NoDup (uuids_drawn (evs ++ PostCrawl credentials body uuid :: later)) ->
      WorkerStart (length (jobs st)) ∉ later ->
      (step cfg (run cfg sub.1 later) (GetTask c uuid)).2 = RespTask pending_task.
Proof.
  intros Hval Hnd st sub. subst sub. simpl. rewrite Hval. unfold crawl.
  destruct (use_llm body) eqn:Hllm; [done|]. simpl.
  assert (drawn (PostCrawl credentials body uuid) = Some uuid) as Hdrawn.
  { simpl. by rewrite Hval, Hllm. }
  assert (tasks st !! uuid = None) as Hfresh.
  { by apply (reach_fresh cfg evs _ uuid Hnd). }
  repeat split; try done.
  - intros Hin. rewrite <- (reach_job_ids cfg) in Hin.
    apply (reach_tracked cfg evs) in Hin as [t Ht]. fold st in Ht. congruence.
  - intros later c Hnd' Hno.
    set (st' := mkState _ _ _).
    assert (run cfg st' later =
            run cfg (init cfg) (evs ++ PostCrawl credentials body uuid :: later))
      as Hrun.
    { rewrite run_app. simpl. rewrite Hval. unfold crawl. by rewrite Hllm. }
    assert (jobs (run cfg st' later) !! length (jobs st)
            = Some (mkJob uuid body Waiting)) as Hjob.
    { apply run_keeps_waiting; [|done]. subst st'. simpl.
      by rewrite list_lookup_middle. }
    unfold get_task_status. rewrite Hrun in *.
    pose proof (reach_live cfg _ Hnd' _ _ Hjob ltac:(done)) as Hp.
    simpl in Hp. by rewrite Hp.
Qed.

(** ** The state machine of a task *)

(** C4: in every state reached from the initial one (identifiers drawn by
    [uuid4] being pairwise distinct), a task holds a non-null result
    exactly when its status is completed and an error exactly when its
    status is failed; and an entry that is completed or failed after a
    prefix of the run is the same entry at the end of the run. *)
Theorem task_invariant_and_monotonic cfg evs :
  NoDup (uuids_drawn evs) ->
  (forall id t, tasks (run cfg (init cfg) evs) !! id = Some t ->
     (has_result t <-> status t = "completed") /\
     (has_error t <-> status t = "failed")) /\
  (forall evs1 evs2 id t, evs = evs1 ++ evs2 ->
     tasks (run cfg (init cfg) evs1) !! id = Some t -> terminal t ->
     tasks (run cfg (init cfg) evs) !! id = Some t).
Proof.
  intros Hnd. split.
  - intros id t Ht.
    destruct (run_shape cfg (init cfg) evs (init_shape cfg) id t Ht)
      as [|p|msg]; unfold has_result, has_error; simpl;
      split; split; try done; try (by intros [? ?]); eauto.
  - intros evs1 evs2. revert evs Hnd.
    induction evs2 as [|ev evs2 IH] using rev_ind;
      intros evs Hnd id t -> Ht Hterm.
    + by rewrite app_nil_r.
    + rewrite app_assoc in *. rewrite run_snoc.
      assert (NoDup (uuids_drawn (evs1 ++ evs2))) as Hnd'.
      { rewrite uuids_drawn_snoc in Hnd. by apply NoDup_app in Hnd as (? & _ & _). }
      apply step_stable.
      * by apply reach_live.
      * intros u Hu. by apply (reach_fresh cfg _ ev).
      * by apply (IH _ Hnd').
      * intros ->. by destruct Hterm.
Qed.

(** C3 as stated fails: in this run the task is submitted, its worker
    starts, the renderer returns a successful result and the worker stores
    it.  The status shown after each step goes from pending directly to
    completed; no state of the run shows running. *)
Lemma completed_without_running :
  tasks (run secured (init secured) short_run) !! "id1"
    = Some (completed_task ok_payload) /\
  observed "id1" (states secured (init secured) short_run) =
    [None; Some "pending"; Some "pending"; Some "completed"] /\
  (Some "running" ∉ observed "id1" (states secured (init secured) short_run)).
Proof.
  split; [reflexivity|]. split; [reflexivity|].
  vm_compute. intros H. repeat (apply elem_of_cons in H as [H|H]; [done|]).
  by apply elem_of_nil in H.
Qed.

Lemma shape_status t :
  task_shape t ->
  status t = "pending" \/ status t = "completed" \/ status t = "failed".
Proof. destruct 1; simpl; auto. Qed.

Lemma observed_elem cfg st evs id s :
  Some s ∈ observed id (states cfg st evs) ->
  exists evs1 evs2 t, evs = evs1 ++ evs2 /\
    tasks (run cfg st evs1) !! id = Some t /\ status t = s.
Proof.
  revert st. induction evs as [|ev evs IH]; intros st; simpl;
    rewrite elem_of_cons.
  - intros [H|H%elem_of_nil]; [|done].
    destruct (tasks st !! id) as [t|] eqn:Ht; [|done].
    exists [], [], t. simpl in *. split_and!; [done..|congruence].
  - intros [H|H].
    + destruct (tasks st !! id) as [t|] eqn:Ht; [|done].
      exists [], (ev :: evs), t. simpl in *. split_and!; [done..|congruence].
    + apply IH in H as (evs1 & evs2 & t & -> & Ht & Hs).
      by exists (ev :: evs1), evs2, t.
Qed.

Lemma observed_pending cfg evs id t :
  tasks (run cfg (init cfg) evs) !! id = Some t ->
  Some "pending" ∈ observed id (states cfg (init cfg) evs).
Proof.
  revert t. induction evs as [|ev evs IH] using rev_ind; intros t.
  - simpl. by rewrite lookup_empty.
  - rewrite observed_snoc, elem_of_app.
    destruct (tasks (run cfg (init cfg) evs) !! id) as [t0|] eqn:Hold.
    { intros _. left. by eapply IH. }
    intros Hnew. right. apply list_elem_of_singleton.
    rewrite Hnew. simpl. f_equal.
    rewrite run_snoc in Hnew.
    assert (~ id ∈ job_ids (run cfg (init cfg) evs)) as Hnot.
    { intros Hin%reach_tracked. rewrite Hold in Hin. by destruct Hin. }
    destruct (decide (drawn ev = Some id)) as [Hd|Hd].
    + destruct ev as [c body u|c tid|j|j o]; simpl in Hd; try done.
      simpl in Hnew. destruct (validate body); [|done]. unfold crawl in Hnew.
      destruct (use_llm body); [done|]. simpl in *.
      injection Hd as ->. rewrite lookup_insert_eq in Hnew. by injection Hnew as <-.
    + exfalso. apply Hnot.
      assert (id ∈ job_ids (step cfg (run cfg (init cfg) evs) ev).1) as Hin.
      { apply step_tracked; [apply reach_tracked|]. by rewrite Hnew. }
      rewrite step_job_ids, elem_of_app in Hin. destruct Hin as [Hin|Hin]; [done|].
      destruct (drawn ev) as [u|]; simpl in Hin; [|by apply elem_of_nil in Hin].
      apply list_elem_of_singleton in Hin. congruence.
Qed.

(** C3, amended: a task goes from pending directly to completed or failed.
    Its status is always one of these three and never running: a task seen
    in a terminal status was shown as pending in some state of the run, and
    as running in none. *)
Theorem terminal_after_pending_never_running cfg evs id t :
  tasks (run cfg (init cfg) evs) !! id = Some t -> terminal t ->
  Some "pending" ∈ observed id (states cfg (init cfg) evs) /\
  (Some "running" ∉ observed id (states cfg (init cfg) evs)) /\
  forall s, Some s ∈ observed id (states cfg (init cfg) evs) ->
    s = "pending" \/ s = "completed" \/ s = "failed".
Proof.
  intros Ht _.
  assert (forall s, Some s ∈ observed id (states cfg (init cfg) evs) ->
            s = "pending" \/ s = "completed" \/ s = "failed") as Hall.
  { intros s (evs1 & evs2 & t' & _ & Ht' & <-)%observed_elem.
    apply shape_status.
    by apply (run_shape cfg (init cfg) evs1 (init_shape cfg) id). }
  split_and!; [by eapply observed_pending| |done].
  intros [H|[H|H]]%Hall; discriminate.
Qed.



(** ** The page timeout and the list of URLs *)

(** C8 as stated fails: a submission with a page timeout of 500 ms is not
    accepted with the timeout raised to 1000; the [ge=1000] constraint
    refuses it with 422 and no task is created. *)
Lemma timeout_below_range_rejected :
  validate (with_timeout 500) = false /\
  step secured (init secured) (PostCrawl "jeremy" (with_timeout 500) "id1") =
    (init secured, RespError 422 "Unprocessable Entity").
Proof. split; reflexivity. Qed.

Lemma worker_start_renders st j id request url free :
  jobs st !! j = Some (mkJob id request Waiting) ->
  permits st = S free ->
  first_url (urls request) = inr url ->
  worker_start j st =
    mkState (tasks st) (set_phase j (Rendering url (run_config request)) (jobs st))
            free.
Proof.
  intros Hj Hp Hu. unfold worker_start, process_crawl_prepare.
  by rewrite Hj, Hp, Hu.
Qed.

(** C8, amended: a page timeout from 1000 to 60000 ms passes validation
    and the timeout handed to the renderer is its minimum with 30000, which
    lies between 1000 and 30000: values up to 30000 are used unchanged and
    larger ones become 30000.  A page timeout below 1000 or above 60000 is
    refused with 422 and the state is left as it was. *)
Theorem page_timeout_capped cfg st credentials body uuid :
  (1 <= priority body <= 10)%Z ->
  ((1000 <= page_timeout body <= 60000)%Z ->
     validate body = true /\
     cfg_page_timeout (run_config body) = Z.min (page_timeout body) 30000 /\
     (1000 <= cfg_page_timeout (run_config body) <= 30000)%Z /\
     ((page_timeout body <= 30000)%Z ->
        cfg_page_timeout (run_config body) = page_timeout body) /\
     ((30000 < page_timeout body)%Z ->
        cfg_page_timeout (run_config body) = 30000%Z) /\
     forall j id url free,
       jobs st !! j = Some (mkJob id body Waiting) ->
       permits st = S free ->
       first_url (urls body) = inr url ->
       jobs (worker_start j st) !! j =
         Some (mkJob id body (Rendering url (run_config body)))) /\
  ((page_timeout body < 1000 \/ 60000 < page_timeout body)%Z ->
     step cfg st (PostCrawl credentials body uuid) =
       (st, RespError 422 "Unprocessable Entity")).
Proof.
  intros Hprio. split.
  - intros Hpt.
    split_and!;
      try (unfold validate, run_config; cbn [cfg_page_timeout]; lia).
    intros j id url free Hj Hp Hu.
    rewrite (worker_start_renders st j id body url free Hj Hp Hu). simpl.
    unfold set_phase. by rewrite list_lookup_alter_eq, Hj.
  - intros Hpt. simpl.
    destruct (validate body) eqn:Hval; [|done].
    unfold validate in Hval. lia.
Qed.

(** C10: a submission whose [urls] is a list is accepted whatever the
    list.  When its worker starts, an empty list makes the task failed with
    the text of the index error; otherwise the renderer is called on the
    first element alone, the task ends with what that one call gives, and
    the worker, then finished, does nothing more. *)
Theorem list_urls_first_only cfg st credentials body uuid l :
  validate body = true -> use_llm body = false -> urls body = UrlList l ->
  0 < permits st ->
  let sub := step cfg st (PostCrawl credentials body uuid) in
  let j := length (jobs st) in
  let st2 := worker_start j sub.1 in
  sub.2 = RespTaskId uuid /\
  tasks sub.1 !! uuid = Some pending_task /\
  match l with
  | [] =>
      tasks st2 !! uuid = Some (failed_task (Some "list index out of range")) /\
      jobs st2 !! j = Some (mkJob uuid body Finished)
  | url :: _ =>
      tasks st2 !! uuid = Some pending_task /\
      jobs st2 !! j = Some (mkJob uuid body (Rendering url (run_config body))) /\
      forall o,
        let st3 := worker_settle j o st2 in
        tasks st3 !! uuid = Some (process_crawl_finish body url o) /\
        jobs st3 !! j = Some (mkJob uuid body Finished) /\
        worker_start j st3 = st3 /\
        forall o', worker_settle j o' st3 = st3
  end.
Proof.
  intros Hval Hllm Hurls Hperm sub j st2. subst sub st2 j. simpl.
  rewrite Hval. unfold crawl. rewrite Hllm. simpl.
  split; [done|]. split; [by rewrite lookup_insert_eq|].
  unfold worker_start, process_crawl_prepare. simpl.
  rewrite list_lookup_middle by done. rewrite Hurls.
  destruct (permits st) as [|free] eqn:Hp; [lia|].
  assert (forall ph, set_phase (length (jobs st)) ph
            (jobs st ++ [mkJob uuid body Waiting]) !! length (jobs st)
            = Some (mkJob uuid body ph)) as Hset.
  { intros ph. unfold set_phase.
    by rewrite list_lookup_alter_eq, list_lookup_middle. }
  destruct l as [|url rest]; simpl.
  - by rewrite lookup_insert_eq, Hset.
  - rewrite lookup_insert_eq, Hset. split_and!; [done..|].
    intros o. unfold worker_settle. simpl. rewrite Hset. simpl.
    assert (forall ph js, set_phase (length (jobs st)) ph
              (set_phase (length (jobs st)) (Rendering url (run_config body)) js)
              !! length (jobs st)
            = (fun job => mkJob (job_task_id job) (job_request job) ph)
                <$> js !! length (jobs st)) as Hset2.
    { intros ph js. unfold set_phase. rewrite !list_lookup_alter_eq.
      by destruct (js !! length (jobs st)). }
    rewrite lookup_insert_eq, Hset2, list_lookup_middle by done. simpl.
    split_and!; try done.
Qed.


(** ** Instances *)
(** A second submission after a first one: its identifier is returned and
    was not in the table before. *)
Lemma submit_creates_pending_task_witness :
  validate example_request = true /\
  NoDup (uuids_drawn (one_submission ++ [PostCrawl "jeremy" example_request "id1"])) /\
  (step secured (run secured (init secured) one_submission)
        (PostCrawl "jeremy" example_request "id1")).2 = RespTaskId "id1" /\
  tasks (run secured (init secured) one_submission) !! "id1" = None.
Proof.
  assert (NoDup (uuids_drawn
            (one_submission ++ [PostCrawl "jeremy" example_request "id1"])))
    as Hnd.
  { apply (bool_decide_unpack _). vm_compute. exact I. }
  destruct (submit_creates_pending_task secured one_submission "jeremy"
              example_request "id1" eq_refl Hnd) as (H1 & H2 & _).
  split; [reflexivity|]. split; [exact Hnd|]. split; [exact H1|exact H2].
Defined.

(** A run with a completed task, a failed task and status queries. *)
Lemma task_invariant_and_monotonic_witness :
  NoDup (uuids_drawn full_run) /\
  forall evs1 evs2 id t, full_run = evs1 ++ evs2 ->
    tasks (run secured (init secured) evs1) !! id = Some t -> terminal t ->
    tasks (run secured (init secured) full_run) !! id = Some t.
Proof.
  assert (NoDup (uuids_drawn full_run)) as Hnd.
  { apply (bool_decide_unpack _). vm_compute. exact I. }
  split; [exact Hnd|].
  exact (proj2 (task_invariant_and_monotonic secured full_run Hnd)).
Defined.

(** The completed task of that run was seen pending and never running. *)
Lemma terminal_after_pending_never_running_witness :
  tasks (run secured (init secured) full_run) !! "id1"
    = Some (completed_task ok_payload) /\
  terminal (completed_task ok_payload) /\
  Some "pending" ∈ observed "id1" (states secured (init secured) full_run) /\
  (Some "running" ∉ observed "id1" (states secured (init secured) full_run)).
Proof.
  assert (tasks (run secured (init secured) full_run) !! "id1"
    = Some (completed_task ok_payload))
    as Ht by reflexivity.
  assert (terminal (completed_task ok_payload))
    as Hterm by (left; reflexivity).
  destruct (terminal_after_pending_never_running secured full_run "id1" _ Ht Hterm)
    as (H1 & H2 & _).
  split; [exact Ht|]. split; [exact Hterm|]. split; [exact H1|exact H2].
Defined.

(** A page timeout of 45 s is accepted and rendered with 30 s. *)
Lemma page_timeout_capped_witness :
  (1 <= priority (with_timeout 45000) <= 10)%Z /\
  (1000 <= page_timeout (with_timeout 45000) <= 60000)%Z /\
  validate (with_timeout 45000) = true /\
  cfg_page_timeout (run_config (with_timeout 45000)) = 30000%Z.
Proof.
  assert (1 <= priority (with_timeout 45000) <= 10)%Z as Hprio by (simpl; lia).
  assert (1000 <= page_timeout (with_timeout 45000) <= 60000)%Z
    as Hpt by (simpl; lia).
  destruct (proj1 (page_timeout_capped secured (init secured) "jeremy"
                     (with_timeout 45000) "id1" Hprio) Hpt)
    as (H1 & _ & _ & _ & H5 & _).
  split; [exact Hprio|]. split; [exact Hpt|]. split; [exact H1|].
  apply H5. simpl. lia.
Defined.

(** Of two URLs the worker renders the first. *)
Lemma list_urls_first_only_witness :
  validate (with_urls ["https://a.example"; "https://b.example"]) = true /\
  0 < permits (init secured) /\
  jobs (worker_start 0
         (step secured (init secured)
            (PostCrawl "jeremy"
               (with_urls ["https://a.example"; "https://b.example"]) "id1")).1)
    !! 0
  = Some (mkJob "id1" (with_urls ["https://a.example"; "https://b.example"])
            (Rendering "https://a.example"
               (run_config (with_urls ["https://a.example"; "https://b.example"])))).
Proof.
  assert (0 < permits (init secured)) as Hperm by (simpl; lia).
  destruct (list_urls_first_only secured (init secured) "jeremy"
              (with_urls ["https://a.example"; "https://b.example"]) "id1"
              ["https://a.example"; "https://b.example"]
              eq_refl eq_refl eq_refl Hperm) as (_ & _ & _ & H & _).
  split; [reflexivity|]. split; [exact Hperm|exact H].
Defined.

(** The submission with an empty list in that run ends failed. *)
Example empty_urls_task_fails :
  tasks (run secured (init secured) full_run) !! "id2"
  = Some (failed_task (Some "list index out of range")).
Proof. reflexivity. Qed.


End ServerFacts.

(** * Properties of the bulk crawler *)

Module CrawlSiteFacts.
Import CrawlSite.
(** ** Classification of the outcomes *)

(** Each settled outcome adds one to exactly one counter, the one of
    its class: timeout for an exception whose lower-cased message contains
    "timeout", error for any other exception, failed for a result without
    success, success for a result with success; the other three counters
    keep their values. *)
Theorem settle_counts_category c url o stats batch_results :
  counter c (settle url o (stats, batch_results)).1 =
  counter c stats + (if decide (c = category_of o) then 1 else 0).
Proof.
  unfold settle, category_of, indicates_timeout, result_dict.
  destruct o as [r|msg].
  - destruct (success r); destruct c; simpl; lia.
  - destruct (contains "timeout" (lower msg)); destruct c; simpl; lia.
Qed.

Lemma settle_total url o acc : total (settle url o acc).1 = S (total acc.1).
Proof.
  destruct acc as [stats br]. unfold total, settle, result_dict.
  destruct o as [r|msg].
  - destruct (success r); simpl; lia.
  - destruct (contains "timeout" (lower msg)); simpl; lia.
Qed.

Lemma result_dict_keys url r :
  exists d, result_dict url r = inr d /\ has_url d /\ no_error d.
Proof.
  unfold result_dict. eexists. split; [done|]. split.
  - unfold has_url. cbn [list_to_map foldr]. rewrite lookup_insert_eq. eauto.
  - unfold no_error. cbn [list_to_map foldr].
    by rewrite !lookup_insert_ne, lookup_empty by done.
Qed.

Lemma settle_results url o acc :
  Forall (fun d => has_url d /\ no_error d) acc.2 ->
  Forall (fun d => has_url d /\ no_error d) (settle url o acc).2.
Proof.
  destruct acc as [stats br]. cbn [snd]. intros Hbr. unfold settle.
  destruct o as [r|msg].
  - destruct (success r); [|done].
    destruct (result_dict_keys url r) as (d & -> & Hd). cbn [snd].
    apply Forall_app. split; [done|]. by apply Forall_singleton.
  - by destruct (contains "timeout" (lower msg)).
Qed.

Section Batches.
Variable arun : nat -> string -> Outcome.

Lemma settle_batch_total i batch acc :
  total (settle_batch arun i batch acc).1 = total acc.1 + length batch.
Proof.
  revert i acc. induction batch as [|url rest IH]; intros i acc; simpl; [lia|].
  rewrite IH, settle_total. lia.
Qed.

Lemma settle_batch_results i batch acc :
  Forall (fun d => has_url d /\ no_error d) acc.2 ->
  Forall (fun d => has_url d /\ no_error d) (settle_batch arun i batch acc).2.
Proof.
  revert i acc. induction batch as [|url rest IH]; intros i acc H; simpl; [done|].
  by apply IH, settle_results.
Qed.

(** ** The sink *)

Lemma save_batch_results_clean results fs :
  Forall (fun d => has_url d /\ no_error d) results ->
  exists lines,
    save_batch_results results fs =
      (mkFiles (results_file fs ++ lines) (errors_file fs), None) /\
    length lines = length results.
Proof.
  revert fs. induction results as [|d rest IH]; intros fs Hall; simpl.
  - exists []. rewrite app_nil_r. by destruct fs.
  - apply Forall_cons in Hall as [[[url Hurl] Herr] Hrest].
    unfold save_one. unfold no_error in Herr. rewrite Hurl, Herr.
    destruct (IH (mkFiles (results_file fs ++ [content_record url d])
                          (errors_file fs)) Hrest) as (lines & -> & Hlen).
    exists (content_record url d :: lines). simpl.
    rewrite <- app_assoc. simpl. split; [done|]. by rewrite Hlen.
Qed.

(** A dict with an ["error"] key is written to both files. *)
Lemma save_one_error d url err fs :
  d !! "url" = Some url -> d !! "error" = Some err ->
  save_one d fs =
    (mkFiles (results_file fs ++ [content_record url d])
             (errors_file fs ++ [error_entry url err]), None).
Proof. intros Hu He. unfold save_one. by rewrite Hu, He. Qed.

(** ** The loop over the batches *)

Lemma run_batches_total bs stats fs :
  exists fs' stats',
    run_batches arun bs stats fs = (fs', inr stats') /\
    total stats' = total stats + length (concat (map snd bs)) /\
    errors_file fs' = errors_file fs.
Proof.
  revert stats fs. induction bs as [|[i batch] rest IH]; intros stats fs; simpl.
  - exists fs, stats. split_and!; [done|lia|done].
  - pose proof (settle_batch_total i batch (stats, [])) as Htot.
    pose proof (settle_batch_results i batch (stats, []) (Forall_nil_2 _)) as Hres.
    destruct (settle_batch arun i batch (stats, [])) as [stats1 br].
    simpl in Htot, Hres. rewrite length_app.
    destruct br as [|d br].
    + destruct (IH stats1 fs) as (fs' & stats' & -> & Ht & He).
      exists fs', stats'. split_and!; [done|lia|done].
    + destruct (save_batch_results_clean (d :: br) fs Hres) as (lines & -> & _).
      destruct (IH stats1 (mkFiles (results_file fs ++ lines) (errors_file fs)))
        as (fs' & stats' & -> & Ht & He).
      exists fs', stats'. split_and!; [done|lia|done].
Qed.

End Batches.

(** ** The partition into batches *)

Lemma ceil_div_step m k : 0 < m -> 0 < k -> ceil_div m k = S (ceil_div (m - k) k).
Proof.
  intros Hm Hk. unfold ceil_div.
  destruct (decide (k <= m)) as [Hle|Hgt].
  - replace (m + k - 1) with ((m - k + k - 1) + 1 * k) by lia.
    rewrite Nat.div_add by lia. lia.
  - replace (m - k + k - 1) with (k - 1) by lia.
    rewrite (Nat.div_small (k - 1)) by lia.
    replace (m + k - 1) with ((m - 1) + 1 * k) by lia.
    rewrite Nat.div_add by lia. rewrite Nat.div_small by lia. done.
Qed.

Lemma ceil_div_0 k : 0 < k -> ceil_div 0 k = 0.
Proof. intros Hk. unfold ceil_div. apply Nat.div_small. lia. Qed.

(** [ceil_div n k] is the least number of groups of [k] that cover [n]. *)
Lemma ceil_div_spec n k :
  0 < k -> n <= ceil_div n k * k /\ ceil_div n k * k < n + k.
Proof.
  intros Hk. unfold ceil_div.
  pose proof (Nat.div_mod (n + k - 1) k ltac:(lia)) as Hdm.
  pose proof (Nat.mod_upper_bound (n + k - 1) k ltac:(lia)) as Hub.
  nia.
Qed.

Section Range.
Variable urls : list string.
Variable k : nat.
Hypothesis k_pos : 0 < k.

Lemma range_from_length fuel start :
  length urls - start <= fuel ->
  length (range_from fuel start (length urls) k) = ceil_div (length urls - start) k.
Proof.
  revert start. induction fuel as [|fuel IH]; intros start Hfuel; simpl.
  - replace (length urls - start) with 0 by lia. by rewrite ceil_div_0.
  - destruct (Nat.ltb_spec start (length urls)) as [Hlt|Hge]; simpl.
    + rewrite IH by lia.
      rewrite (ceil_div_step (length urls - start) k) by lia.
      do 2 f_equal. lia.
    + replace (length urls - start) with 0 by lia. by rewrite ceil_div_0.
Qed.

Lemma range_from_concat fuel start :
  length urls - start <= fuel ->
  concat (map (fun i => slice urls i k) (range_from fuel start (length urls) k))
  = drop start urls.
Proof.
  revert start. induction fuel as [|fuel IH]; intros start Hfuel; simpl.
  - rewrite drop_ge; [done|lia].
  - destruct (Nat.ltb_spec start (length urls)) as [Hlt|Hge]; simpl.
    + rewrite IH by lia. unfold slice.
      rewrite <- (drop_drop urls k start). apply take_drop.
    + rewrite drop_ge; [done|lia].
Qed.

Lemma range_from_sizes fuel start :
  Forall (fun i => 1 <= length (slice urls i k) <= k)
         (range_from fuel start (length urls) k).
Proof.
  revert start. induction fuel as [|fuel IH]; intros start; simpl; [done|].
  destruct (Nat.ltb_spec start (length urls)) as [Hlt|Hge]; [|done].
  apply Forall_cons. split; [|apply IH].
  unfold slice. rewrite length_take, length_drop. lia.
Qed.

End Range.



(** ** Batches and counters *)

(** For [N] URLs and a bound [K >= 1] the coordinator goes through
    [ceil(N/K)] batches, which are consecutive pieces of the list of at
    most [K] URLs each, and it returns counters whose sum is [N]. *)
Theorem crawl_parallel_batches_and_total arun urls fs max_concurrent :
  (1 <= max_concurrent)%Z ->
  let k := Z.to_nat max_concurrent in
  exists bs fs' stats,
    batches urls max_concurrent = inr bs /\
    length bs = ceil_div (length urls) k /\
    concat (map snd bs) = urls /\
    Forall (fun b => b.2 = take k (drop b.1 urls) /\ 1 <= length b.2 <= k) bs /\
    crawl_parallel arun urls fs max_concurrent = (fs', inr stats) /\
    st_success stats + st_failed stats + st_timeout stats + st_error stats
      = length urls.
Proof.
  intros HK k. assert (0 < k) as Hk by lia.
  unfold crawl_parallel, batches, py_range.
  destruct (Z.eqb_spec max_concurrent 0) as [?|_]; [lia|].
  destruct (Z.ltb_spec max_concurrent 0) as [?|_]; [lia|].
  fold k. set (bs := map _ _).
  destruct (run_batches_total arun bs stats0 fs) as (fs' & stats & Hrun & Htot & _).
  assert (concat (map snd bs) = urls) as Hcat.
  { subst bs. rewrite map_map. simpl.
    rewrite (range_from_concat urls k Hk) by lia. apply drop_0. }
  exists bs, fs', stats. split_and!; try done.
  - subst bs. rewrite length_map, (range_from_length urls k Hk) by lia.
    f_equal. lia.
  - subst bs. apply Forall_fmap.
    eapply Forall_impl; [apply (range_from_sizes urls k Hk)|].
    intros i Hi. simpl. by split.
  - rewrite Hcat in Htot. unfold total in Htot. simpl in Htot. lia.
Qed.

(** ** The two logs *)

(** C9 (the code departs from the claim): a batch of one URL whose crawl
    returns a result without success.  The item is counted as failed, and
    both logs are left empty: nothing is appended to the errors log. *)
Theorem failed_item_is_not_logged :
  crawl_parallel (fun _ _ => Returned unresolved)
                 ["https://example.com/missing"] (mkFiles [] []) 1
  = (mkFiles [] [], inr (mkStats 0 1 0 0)).
Proof. reflexivity. Qed.

(** The coordinator never adds a line to the errors log, whatever the
    outcomes: the only dicts it hands to the sink are those of successful
    items, which carry no ["error"] key. *)
Lemma crawl_parallel_errors_file arun urls fs max_concurrent :
  errors_file (crawl_parallel arun urls fs max_concurrent).1 = errors_file fs.
Proof.
  unfold crawl_parallel. destruct (batches urls max_concurrent) as [e|bs]; [done|].
  by destruct (run_batches_total arun bs stats0 fs) as (fs' & stats & -> & _ & He).
Qed.

(** ** Sitemaps *)

Lemma is_xml_Some s : is_xml (Some s) = endswith s ".xml".
Proof. by destruct s. Qed.

Section SitemapFacts.
Variable urljoin : string -> string -> string.
Variable fetch : string -> option (list (option string)).

Lemma fetch_sub_sitemaps_union sitemaps urls :
  fetch_sub_sitemaps fetch sitemaps urls = urls ∪ leaf_union fetch sitemaps.
Proof.
  unfold leaf_union. revert urls.
  induction sitemaps as [|s rest IH]; intros urls; simpl.
  - set_solver.
  - unfold leaves_of at 1. destruct (is_xml s).
    + destruct (fetch (default "" s)); rewrite IH; set_solver.
    + rewrite IH. set_solver.
Qed.

Lemma collect_found sitemaps urls :
  collect fetch sitemaps urls = urls ∪ found fetch sitemaps.
Proof.
  unfold collect, found. destruct (existsb is_xml sitemaps); [|done].
  apply fetch_sub_sitemaps_union.
Qed.

Lemma try_locations_skip base before rest :
  Forall (yields_nothing urljoin fetch base) before ->
  try_locations urljoin fetch base (before ++ rest) ∅ =
  try_locations urljoin fetch base rest ∅.
Proof.
  induction 1 as [|p before Hp _ IH]; simpl; [done|].
  unfold yields_nothing in Hp.
  destruct (fetch (urljoin base p)) as [sitemaps|]; [|done].
  rewrite collect_found, Hp, (left_id_L ∅ (∪)).
  by rewrite bool_decide_eq_true_2.
Qed.

Lemma elem_of_leaf_union sitemaps u :
  u ∈ leaf_union fetch sitemaps <->
  exists s sub, Some s ∈ sitemaps /\ endswith s ".xml" = true /\
                fetch s = Some sub /\ u ∈ sub.
Proof.
  unfold leaf_union. rewrite elem_of_union_list. split.
  - intros (X & HX & Hu). apply list_elem_of_fmap in HX as (e & -> & He).
    unfold leaves_of in Hu. destruct (is_xml e) eqn:Hxml; [|set_solver].
    destruct e as [s|]; [|done]. simpl in Hu.
    destruct (fetch s) as [sub|] eqn:Hs; [|set_solver].
    exists s, sub. rewrite is_xml_Some in Hxml.
    split_and!; try done. by apply elem_of_list_to_set in Hu.
  - intros (s & sub & Hs & Hxml & Hf & Hu).
    exists (leaves_of fetch (Some s)). split.
    + apply list_elem_of_fmap. eauto.
    + unfold leaves_of. rewrite is_xml_Some, Hxml. simpl. rewrite Hf.
      by apply elem_of_list_to_set.
Qed.

End SitemapFacts.

Lemma try_locations_nothing urljoin fetch base locations :
  Forall (yields_nothing urljoin fetch base) locations ->
  try_locations urljoin fetch base locations ∅ = ∅.
Proof.
  intros H. rewrite <- (app_nil_r locations).
  by rewrite try_locations_skip.
Qed.

(** Take a candidate before which every candidate yielded no URL, and
    which yields some URL itself or is followed only by candidates that
    yield none (the first candidate that yields any URL decides the
    outcome).  When one of its entries ends in [.xml], the resolver returns
    exactly the URLs that occur as [loc] text in a fetched [.xml] entry
    (what its other entries name is not added); when none does, it returns
    exactly its entries. *)
Theorem discover_candidate urljoin fetch base k path sitemaps :
  sitemap_locations !! k = Some path ->
  (forall j p, j < k -> sitemap_locations !! j = Some p ->
     yields_nothing urljoin fetch base p) ->
  fetch (urljoin base path) = Some sitemaps ->
  (found fetch sitemaps = ∅ ->
     forall j p, k < j -> sitemap_locations !! j = Some p ->
       yields_nothing urljoin fetch base p) ->
  get_sitemap_urls urljoin fetch base = found fetch sitemaps /\
  forall u,
    u ∈ get_sitemap_urls urljoin fetch base <->
    if existsb is_xml sitemaps then
      exists s sub, Some s ∈ sitemaps /\ endswith s ".xml" = true /\
                    fetch s = Some sub /\ u ∈ sub
    else u ∈ sitemaps.
Proof.
  intros Hk Hbefore Hfetch Hafter.
  assert (get_sitemap_urls urljoin fetch base = found fetch sitemaps) as Heq.
  { unfold get_sitemap_urls.
    rewrite <- (take_drop_middle _ _ _ Hk).
    rewrite try_locations_skip.
    - simpl. rewrite Hfetch, collect_found, (left_id_L ∅ (∪)).
      case_bool_decide as Hempty; [|done].
      rewrite Hempty. apply try_locations_nothing.
      apply Forall_lookup. intros j p Hj.
      rewrite lookup_drop in Hj. apply (Hafter Hempty (S k + j)); [lia|done].
    - apply Forall_lookup. intros j p Hj.
      apply lookup_take_Some in Hj as [Hj Hlt]. by apply (Hbefore j). }
  split; [done|]. intros u. rewrite Heq. unfold found.
  destruct (existsb is_xml sitemaps).
  - apply elem_of_leaf_union.
  - apply elem_of_list_to_set.
Qed.

(** ** Instances *)
(** Seven URLs in batches of three: three batches, counters summing to
    seven. *)
Lemma crawl_parallel_batches_and_total_witness :
  (1 <= 3)%Z /\
  exists bs fs' stats,
    batches ["a"; "b"; "c"; "d"; "e"; "f"; "g"] 3 = inr bs /\
    length bs = ceil_div 7 3 /\
    crawl_parallel sample_arun ["a"; "b"; "c"; "d"; "e"; "f"; "g"]
                   (mkFiles [] []) 3 = (fs', inr stats) /\
    st_success stats + st_failed stats + st_timeout stats + st_error stats = 7.
Proof.
  assert (1 <= 3)%Z as HK by lia.
  split; [exact HK|].
  destruct (crawl_parallel_batches_and_total sample_arun
              ["a"; "b"; "c"; "d"; "e"; "f"; "g"] (mkFiles [] []) 3 HK)
    as (bs & fs' & stats & H1 & H2 & _ & _ & H5 & H6).
  exists bs, fs', stats.
  split; [exact H1|]. split; [exact H2|]. split; [exact H5|exact H6].
Defined.

(** A site without [/sitemap.xml] whose index names two sub-sitemaps and one
    page. *)
Lemma discover_candidate_witness :
  sitemap_locations !! 1 = Some "/sitemap_index.xml" /\
  yields_nothing String.append sample_fetch "https://site.example"
                 "/sitemap.xml" /\
  sample_fetch (String.append "https://site.example" "/sitemap_index.xml")
    = Some sample_index /\
  found sample_fetch sample_index <> ∅ /\
  get_sitemap_urls String.append sample_fetch "https://site.example"
    = found sample_fetch sample_index.
Proof.
  assert (found sample_fetch sample_index <> ∅) as Hne.
  { apply (bool_decide_unpack _). vm_compute. exact I. }
  assert (forall j p, j < 1 -> sitemap_locations !! j = Some p ->
            yields_nothing String.append sample_fetch "https://site.example" p)
    as Hbefore.
  { intros [|j] p Hj; [|lia]. intros [= <-]. exact I. }
  split; [reflexivity|]. split; [exact I|]. split; [reflexivity|].
  split; [exact Hne|].
  exact (proj1 (discover_candidate String.append sample_fetch
                  "https://site.example" 1 "/sitemap_index.xml" sample_index
                  eq_refl Hbefore eq_refl
                  (fun Hempty => False_ind _ (Hne Hempty)))).
Defined.

(** The three leaf URLs of that site, the shared one once; the page that
    the index names directly is not among them. *)
Example discover_sample :
  elements (get_sitemap_urls String.append sample_fetch "https://site.example")
  ≡ₚ [Some "https://site.example/p1"; Some "https://site.example/p2";
      Some "https://site.example/contact"].
Proof. vm_compute. apply (bool_decide_unpack _). vm_compute. exact I. Qed.


End CrawlSiteFacts.

(** * Further properties of the server *)

Module ServerExtras.
Import Server ServerFacts.


(** ** The semaphore *)

Lemma rendering_snoc js job :
  rendering (js ++ [job]) =
  rendering js + (if is_rendering (job_phase job) then 1 else 0).
Proof.
  induction js as [|x js IH]; simpl; [lia|]. rewrite IH.
  repeat case_match; lia.
Qed.

Lemma rendering_set_phase j ph js job :
  js !! j = Some job ->
  rendering (set_phase j ph js)
    + (if is_rendering (job_phase job) then 1 else 0)
  = rendering js + (if is_rendering ph then 1 else 0).
Proof.
  unfold set_phase, alter. revert j.
  induction js as [|x js IH]; intros [|j] Hj; simpl in *; try done.
  - injection Hj as ->. repeat case_match; lia.
  - specialize (IH j Hj). repeat case_match; lia.
Qed.

Lemma step_permits cfg st ev :
  permits (step cfg st ev).1 + rendering (jobs (step cfg st ev).1)
  = permits st + rendering (jobs st).
Proof.
  destruct ev as [c body u|c id|j|j o]; simpl.
  - destruct (validate body); [|done]. unfold crawl.
    destruct (use_llm body); [done|]. simpl. rewrite rendering_snoc. simpl. lia.
  - done.
  - unfold worker_start.
    destruct (jobs st !! j) as [[tid rq [| |]]|] eqn:Hj; try done.
    destruct (permits st) as [|free] eqn:Hp; [by rewrite Hp|].
    destruct (process_crawl_prepare rq) as [e|[url c]]; simpl;
      pose proof (rendering_set_phase j Finished _ _ Hj) as H1;
      pose proof (rendering_set_phase j (Rendering url c) _ _ Hj) as H2 || idtac;
      simpl in *; lia.
  - unfold worker_settle.
    destruct (jobs st !! j) as [[tid rq [|url c|]]|] eqn:Hj; try done.
    simpl. pose proof (rendering_set_phase j Finished _ _ Hj) as H1.
    simpl in *. lia.
Qed.

(** X1: in every state that a run reaches, the free permits and the
    coroutines inside the semaphore add up to [MAX_CONCURRENT_TASKS]; so at
    most that many renders are in progress, and the semaphore is never
    released more often than it was acquired. *)
Theorem semaphore_bounds_renders cfg evs :
  let st := run cfg (init cfg) evs in
  permits st + rendering (jobs st) = MAX_CONCURRENT_TASKS cfg /\
  rendering (jobs st) <= MAX_CONCURRENT_TASKS cfg /\
  permits st <= MAX_CONCURRENT_TASKS cfg.
Proof.
  simpl.
  assert (permits (run cfg (init cfg) evs)
          + rendering (jobs (run cfg (init cfg) evs))
          = MAX_CONCURRENT_TASKS cfg) as H.
  { induction evs as [|ev evs IH] using rev_ind; [simpl; lia|].
    by rewrite run_snoc, step_permits. }
  lia.
Qed.

(** ** Status queries and the health report *)

(** X2: after any run, a status query is answered 404 exactly for the
    identifiers that no accepted submission has returned. *)
Theorem unknown_task_not_found cfg evs credentials task_id :
  (step cfg (run cfg (init cfg) evs) (GetTask credentials task_id)).2
    = RespError 404 "Task not found"
  <-> task_id ∉ uuids_drawn evs.
Proof.
  simpl. unfold get_task_status.
  rewrite <- (reach_job_ids cfg), <- (reach_tracked cfg evs task_id).
  destruct (tasks (run cfg (init cfg) evs) !! task_id) as [t|]; split.
  - discriminate.
  - intros H. destruct H. eauto.
  - by intros _ [? ?].
  - done.
Qed.

Lemma reach_dom cfg evs :
  dom (tasks (run cfg (init cfg) evs)) = list_to_set (uuids_drawn evs).
Proof.
  apply set_eq. intros id.
  rewrite elem_of_dom, elem_of_list_to_set, <- (reach_job_ids cfg).
  apply reach_tracked.
Qed.

(** X3: the [active_tasks] figure of the health report is the number of
    submissions accepted so far (identifiers drawn by [uuid4] being
    pairwise distinct): finished tasks are counted too, nothing is ever
    removed from the table. *)
Theorem health_counts_all_tasks cfg evs :
  NoDup (uuids_drawn evs) ->
  health_check cfg (run cfg (init cfg) evs) =
    mkHealth "healthy" (MAX_CONCURRENT_TASKS cfg) (length (uuids_drawn evs)) false.
Proof.
  intros Hnd. unfold health_check. f_equal.
  rewrite <- size_dom, reach_dom. by apply size_list_to_set.
Qed.

(** ** Coroutines only advance *)

Lemma set_phase_keeps j ph js i job :
  js !! i = Some job ->
  exists job', set_phase j ph js !! i = Some job' /\
    job_task_id job' = job_task_id job /\
    job_request job' = job_request job /\
    (job_phase job' = job_phase job \/ (i = j /\ job_phase job' = ph)).
Proof.
  intros Hi. unfold set_phase. destruct (decide (j = i)) as [->|Hne].
  - rewrite list_lookup_alter_eq, Hi. simpl. eexists. split; [done|].
    simpl. split_and!; [done..|]. by right.
  - rewrite list_lookup_alter_ne by done. exists job. split_and!; [done..|].
    by left.
Qed.

Lemma step_keeps_jobs cfg st ev j job :
  jobs st !! j = Some job ->
  exists job', jobs (step cfg st ev).1 !! j = Some job' /\
    job_task_id job' = job_task_id job /\
    job_request job' = job_request job /\
    phase_rank (job_phase job) <= phase_rank (job_phase job').
Proof.
  intros Hj. destruct ev as [c body u|c id|i|i o]; simpl.
  - destruct (validate body); [|by eauto]. unfold crawl.
    destruct (use_llm body); [by eauto|]. simpl.
    exists job. rewrite lookup_app_l; [done|]. by eapply lookup_lt_Some.
  - eauto.
  - unfold worker_start.
    destruct (jobs st !! i) as [[tid rq [| |]]|] eqn:Hi; eauto.
    destruct (permits st); [by eauto|].
    destruct (process_crawl_prepare rq) as [e|[url c]]; simpl.
    + destruct (set_phase_keeps i Finished _ j job Hj)
        as (job' & H1 & H2 & H3 & [H4|[-> H4]]); exists job';
        split_and!; try done; rewrite H4; [lia|].
      rewrite Hi in Hj. injection Hj as <-. simpl. lia.
    + destruct (set_phase_keeps i (Rendering url c) _ j job Hj)
        as (job' & H1 & H2 & H3 & [H4|[-> H4]]); exists job';
        split_and!; try done; rewrite H4; [lia|].
      rewrite Hi in Hj. injection Hj as <-. simpl. lia.
  - unfold worker_settle.
    destruct (jobs st !! i) as [[tid rq [|url c|]]|] eqn:Hi; eauto.
    simpl.
    destruct (set_phase_keeps i Finished _ j job Hj)
      as (job' & H1 & H2 & H3 & [H4|[-> H4]]); exists job';
      split_and!; try done; rewrite H4; [lia|].
    rewrite Hi in Hj. injection Hj as <-. simpl. lia.
Qed.

Lemma step_keeps_tasks cfg st ev id :
  is_Some (tasks st !! id) -> is_Some (tasks (step cfg st ev).1 !! id).
Proof.
  intros Hid. destruct ev as [c body u|c tid|j|j o]; simpl.
  - destruct (validate body); [|done]. unfold crawl.
    destruct (use_llm body); [done|]. simpl.
    rewrite lookup_insert_is_Some. destruct (decide (u = id)); auto.
  - done.
  - unfold worker_start.
    destruct (jobs st !! j) as [[tid rq [| |]]|]; try done.
    destruct (permits st); [done|].
    destruct (process_crawl_prepare rq) as [e|[url c]]; simpl; [|done].
    rewrite lookup_insert_is_Some. destruct (decide (tid = id)); auto.
  - unfold worker_settle.
    destruct (jobs st !! j) as [[tid rq [|url c|]]|]; try done.
    simpl. rewrite lookup_insert_is_Some. destruct (decide (tid = id)); auto.
Qed.

(** X4: from any state on, whatever happens next, a coroutine keeps its
    place, its task identifier and its request, and its phase only moves
    forward (waiting, rendering, finished): no retry and no cancellation. *)
Theorem coroutines_only_advance cfg st evs j job :
  jobs st !! j = Some job ->
  exists job', jobs (run cfg st evs) !! j = Some job' /\
    job_task_id job' = job_task_id job /\
    job_request job' = job_request job /\
    phase_rank (job_phase job) <= phase_rank (job_phase job').
Proof.
  revert st job. induction evs as [|ev evs IH]; intros st job Hj; simpl.
  - exists job. split_and!; [done..|lia].
  - destruct (step_keeps_jobs cfg st ev j job Hj) as (job1 & H1 & Hid & Hrq & Hph).
    destruct (IH _ job1 H1) as (job' & H' & Hid' & Hrq' & Hph').
    exists job'. split_and!; [done|congruence|congruence|lia].
Qed.

(** X5: from any state on, whatever happens next, an entry of the task
    table is never removed. *)
Theorem tasks_never_removed cfg st evs id :
  is_Some (tasks st !! id) -> is_Some (tasks (run cfg st evs) !! id).
Proof.
  revert st. induction evs as [|ev evs IH]; intros st Hid; simpl; [done|].
  by apply IH, step_keeps_tasks.
Qed.

(** ** What the renderer is called with *)

Lemma step_job_ok cfg st ev :
  (forall j job, jobs st !! j = Some job -> job_ok job) ->
  forall j job, jobs (step cfg st ev).1 !! j = Some job -> job_ok job.
Proof.
  intros Hst. destruct ev as [c body u|c id|i|i o]; simpl.
  - destruct (validate body) eqn:Hval; [|done]. unfold crawl.
    destruct (use_llm body) eqn:Hllm; [done|]. simpl.
    intros j job [[_ Hj]|[_ <-]]%lookup_snoc_Some; [by eapply Hst|].
    by split_and!.
  - done.
  - unfold worker_start.
    destruct (jobs st !! i) as [[tid rq [| |]]|] eqn:Hi; try done.
    destruct (permits st); [done|].
    destruct (Hst i _ Hi) as (Hval & Hllm & _). simpl in Hval, Hllm.
    unfold process_crawl_prepare.
    destruct (first_url (urls rq)) as [e|url] eqn:Hurl; simpl;
      intros j job Hj;
      apply set_phase_lookup in Hj
        as [(-> & Hp & old & Hold & Hid & Hrq)|[Hne Hj]];
      try (by eapply Hst);
      rewrite Hi in Hold; injection Hold as <-; simpl in *;
      unfold job_ok; rewrite Hp, Hrq; by split_and!.
  - unfold worker_settle.
    destruct (jobs st !! i) as [[tid rq [|url c|]]|] eqn:Hi; try done.
    destruct (Hst i _ Hi) as (Hval & Hllm & _). simpl in Hval, Hllm.
    simpl. intros j job Hj.
    apply set_phase_lookup in Hj
      as [(-> & Hp & old & Hold & Hid & Hrq)|[Hne Hj]]; [|by eapply Hst].
    rewrite Hi in Hold. injection Hold as <-. simpl in *.
    unfold job_ok. rewrite Hp, Hrq. by split_and!.
Qed.

Lemma reach_job_ok cfg evs j job :
  jobs (run cfg (init cfg) evs) !! j = Some job -> job_ok job.
Proof.
  revert j job. induction evs as [|ev evs IH] using rev_ind; intros j job.
  - simpl. by rewrite lookup_nil.
  - rewrite run_snoc. by apply step_job_ok.
Qed.

(** X6: whenever a render is in progress in a state that a run reaches, it
    was started from a validated request that does not ask for the LLM, on
    the first URL of that request, with a page timeout between 1000 and
    30000 ms and with a wait condition other than networkidle0. *)
Theorem renders_are_bounded cfg evs j id request url config :
  jobs (run cfg (init cfg) evs) !! j
    = Some (mkJob id request (Rendering url config)) ->
  validate request = true /\ use_llm request = false /\
  first_url (urls request) = inr url /\
  config = run_config request /\
  (1000 <= cfg_page_timeout config <= 30000)%Z /\
  cfg_wait_until config <> "networkidle0".
Proof.
  intros Hj. destruct (reach_job_ok cfg evs j _ Hj) as (Hval & Hllm & Hurl & ->).
  simpl in *. split_and!; try done.
  - unfold validate in Hval. unfold run_config; simpl. lia.
  - unfold validate in Hval. unfold run_config; simpl. lia.
  - unfold run_config; simpl. by case_bool_decide.
Qed.

(** ** What a completed task holds *)

Lemma finish_completed request url o p :
  process_crawl_finish request url o = completed_task p ->
  p_url p = url /\
  exists r, o = Returned r /\ success r = true /\ markdown_v2 r <> IsNone /\
    p_extracted_json p
      = (if extract_json request then extracted_content r else None).
Proof.
  unfold process_crawl_finish. destruct o as [r|msg]; [|discriminate].
  destruct (success r) eqn:Hs; [|discriminate].
  unfold read_markdown.
  destruct (markdown_v2 r) as [| |md] eqn:Hmd; try discriminate;
    intros [= <-]; simpl; (split; [done|]); exists r; by rewrite Hmd.
Qed.

Lemma step_completed_from_job cfg st ev :
  (forall j job, jobs st !! j = Some job -> job_ok job) ->
  completed_from_job st -> completed_from_job (step cfg st ev).1.
Proof.
  intros Hok Hst. destruct ev as [c body u|c tid|i|i o]; simpl.
  - destruct (validate body); [|done]. unfold crawl.
    destruct (use_llm body); [done|]. intros id p; simpl.
    rewrite lookup_insert. case_decide; [done|]. intros Hid.
    destruct (Hst id p Hid) as (j & job & Hj & Hrest).
    exists j, job. split; [|done].
    rewrite lookup_app_l; [done|]. by eapply lookup_lt_Some.
  - done.
  - unfold worker_start.
    destruct (jobs st !! i) as [[tid rq [| |]]|] eqn:Hi; try done.
    destruct (permits st); [done|].
    destruct (process_crawl_prepare rq) as [e|[url c]]; intros id p; simpl.
    + rewrite lookup_insert. case_decide; [done|]. intros Hid.
      destruct (Hst id p Hid) as (j & job & Hj & Hjid & Hph & Hurl).
      exists j, job. split; [|done].
      unfold set_phase. rewrite list_lookup_alter_ne; [done|].
      intros ->. rewrite Hi in Hj. by injection Hj as <-.
    + intros Hid.
      destruct (Hst id p Hid) as (j & job & Hj & Hjid & Hph & Hurl).
      exists j, job. split; [|done].
      unfold set_phase. rewrite list_lookup_alter_ne; [done|].
      intros ->. rewrite Hi in Hj. by injection Hj as <-.
  - unfold worker_settle.
    destruct (jobs st !! i) as [[tid rq [|url c|]]|] eqn:Hi; try done.
    intros id p; simpl. rewrite lookup_insert. case_decide as Hid.
    + intros [= Hfin]. apply finish_completed in Hfin as [Hu _].
      destruct (Hok i _ Hi) as (_ & _ & Hurl & _). simpl in Hurl.
      exists i, (mkJob tid rq Finished). subst. split_and!; try done.
      unfold set_phase. by rewrite list_lookup_alter_eq, Hi.
    + intros Ht.
      destruct (Hst id p Ht) as (j & job & Hj & Hjid & Hph & Hurl).
      exists j, job. split; [|done].
      unfold set_phase. rewrite list_lookup_alter_ne; [done|].
      intros ->. rewrite Hi in Hj. by injection Hj as <-.
Qed.

(** X8: in every state that a run reaches, the [url] of the result of a
    completed task is the first URL of a request that was submitted under
    the task's identifier and whose coroutine has finished. *)
Theorem completed_result_url cfg evs id p :
  tasks (run cfg (init cfg) evs) !! id = Some (completed_task p) ->
  exists j job,
    jobs (run cfg (init cfg) evs) !! j = Some job /\
    job_task_id job = id /\ job_phase job = Finished /\
    first_url (urls (job_request job)) = inr (p_url p).
Proof.
  revert id p. change (completed_from_job (run cfg (init cfg) evs)).
  induction evs as [|ev evs IH] using rev_ind.
  - intros id p. simpl. by rewrite lookup_empty.
  - rewrite run_snoc. apply step_completed_from_job; [|done].
    apply reach_job_ok.
Qed.

(** ** A semaphore without permits *)

(** X9: with [MAX_CONCURRENT_TASKS = 0] no coroutine ever enters the
    semaphore: whatever is submitted and whatever else happens, every task
    of the table stays pending. *)
Theorem no_permits_all_pending cfg evs id t :
  MAX_CONCURRENT_TASKS cfg = 0 ->
  tasks (run cfg (init cfg) evs) !! id = Some t -> t = pending_task.
Proof.
  intros Hmax. revert id t.
  assert (permits (run cfg (init cfg) evs) = 0 /\
          (forall j job, jobs (run cfg (init cfg) evs) !! j = Some job ->
             job_phase job = Waiting) /\
          (forall id t, tasks (run cfg (init cfg) evs) !! id = Some t ->
             t = pending_task)) as (_ & _ & H); [|done].
  induction evs as [|ev evs IH] using rev_ind.
  - simpl. split_and!; [done| |]; intros ? ?; [by rewrite lookup_nil|by rewrite lookup_empty].
  - destruct IH as (Hp & Hj & Ht). rewrite run_snoc.
    destruct ev as [c body u|c tid|i|i o]; simpl.
    + destruct (validate body); [|done]. unfold crawl.
      destruct (use_llm body); [done|]. simpl. split_and!; [done| |].
      * intros j job [[_ H]|[_ <-]]%lookup_snoc_Some; [by eapply Hj|done].
      * intros id t. rewrite lookup_insert. case_decide; [congruence|apply Ht].
    + done.
    + unfold worker_start.
      destruct (jobs _ !! i) as [[tid rq [| |]]|]; try done.
      by rewrite Hp.
    + unfold worker_settle.
      destruct (jobs _ !! i) as [[tid rq [|url c|]]|] eqn:Hi; try done.
      by specialize (Hj i _ Hi).
Qed.

(** ** The token check and the command-line client *)

(** X10: [verify_token] answers true exactly when no secret is configured,
    when the configured secret is the empty string, or when the credentials
    equal the secret. *)
Theorem verify_token_spec cfg credentials :
  verify_token cfg credentials = true <->
  API_TOKEN cfg = None \/ API_TOKEN cfg = Some "" \/
  API_TOKEN cfg = Some credentials.
Proof.
  unfold verify_token. destruct (API_TOKEN cfg) as [[|a s]|]; simpl.
  - split; auto.
  - rewrite bool_decide_eq_true. split; [auto|].
    intros [H|[H|H]]; congruence.
  - split; auto.
Qed.

(** X11: the request that the command-line client builds passes the
    validation of the server exactly when its [--timeout] is at least
    1000 ms; the timeout it sends is then what the renderer gets (the cap
    of the server changes nothing), and the wait condition networkidle0 is
    replaced by domcontentloaded while the other conditions are kept. *)
Theorem cli_request_accepted url timeout wait_for :
  (validate (cli_request url timeout wait_for) = true <-> (1000 <= timeout)%Z) /\
  cfg_page_timeout (run_config (cli_request url timeout wait_for))
    = page_timeout (cli_request url timeout wait_for) /\
  cfg_wait_until (run_config (cli_request url timeout wait_for))
    = (if bool_decide (wait_for = "networkidle0")
       then "domcontentloaded" else wait_for) /\
  first_url (urls (cli_request url timeout wait_for)) = inr url /\
  cfg_content_filter (run_config (cli_request url timeout wait_for))
    = Some PruningContentFilter /\
  cfg_extraction_strategy (run_config (cli_request url timeout wait_for)) = None.
Proof.
  unfold validate, run_config, cli_request; simpl.
  split_and!; try done; lia.
Qed.

(** ** Instances *)

(** Two accepted submissions: the health report counts two tasks, one of
    them completed and one failed. *)
Lemma health_counts_all_tasks_witness :
  NoDup (uuids_drawn full_run) /\
  health_check secured (run secured (init secured) full_run)
    = mkHealth "healthy" 5 2 false.
Proof.
  assert (NoDup (uuids_drawn full_run)) as Hnd.
  { apply (bool_decide_unpack _). vm_compute. exact I. }
  split; [exact Hnd|]. exact (health_counts_all_tasks secured full_run Hnd).
Defined.

(** A waiting coroutine that is started and settled ends finished, with
    the identifier and the request it was created with. *)
Lemma coroutines_only_advance_witness :
  jobs one_waiting !! 0 = Some (mkJob "id1" example_request Waiting) /\
  exists job',
    jobs (run secured one_waiting start_and_settle) !! 0 = Some job' /\
    job_task_id job' = "id1" /\ job_request job' = example_request /\
    0 <= phase_rank (job_phase job').
Proof.
  split; [reflexivity|].
  exact (coroutines_only_advance secured one_waiting start_and_settle 0
           (mkJob "id1" example_request Waiting) eq_refl).
Defined.

Lemma tasks_never_removed_witness :
  is_Some (tasks one_waiting !! "id1") /\
  is_Some (tasks (run secured one_waiting start_and_settle) !! "id1").
Proof.
  assert (is_Some (tasks one_waiting !! "id1")) as H.
  { exists pending_task. reflexivity. }
  split; [exact H|].
  exact (tasks_never_removed secured one_waiting start_and_settle "id1" H).
Defined.

(** The render of the sample request. *)
Lemma renders_are_bounded_witness :
  jobs (run secured (init secured)
          [PostCrawl "jeremy" (with_timeout 45000) "id1"; WorkerStart 0]) !! 0
    = Some (mkJob "id1" (with_timeout 45000)
              (Rendering "https://example.com" (run_config (with_timeout 45000)))) /\
  (1000 <= cfg_page_timeout (run_config (with_timeout 45000)) <= 30000)%Z.
Proof.
  split; [reflexivity|].
  destruct (renders_are_bounded secured
              [PostCrawl "jeremy" (with_timeout 45000) "id1"; WorkerStart 0]
              0 "id1" (with_timeout 45000) "https://example.com"
              (run_config (with_timeout 45000)) eq_refl)
    as (_ & _ & _ & _ & H & _).
  exact H.
Defined.

Lemma completed_result_url_witness :
  tasks (run secured (init secured) short_run) !! "id1"
    = Some (completed_task ok_payload) /\
  exists j job,
    jobs (run secured (init secured) short_run) !! j = Some job /\
    job_task_id job = "id1" /\ job_phase job = Finished /\
    first_url (urls (job_request job)) = inr (p_url ok_payload).
Proof.
  split; [reflexivity|].
  exact (completed_result_url secured short_run "id1" ok_payload eq_refl).
Defined.

(** Without permits the same run leaves the task pending. *)
Lemma no_permits_all_pending_witness :
  MAX_CONCURRENT_TASKS no_permits = 0 /\
  tasks (run no_permits (init no_permits) short_run) !! "id1"
    = Some pending_task /\
  pending_task = pending_task.
Proof.
  split; [reflexivity|]. split; [reflexivity|].
  exact (no_permits_all_pending no_permits short_run "id1" pending_task
           eq_refl eq_refl).
Defined.

End ServerExtras.

(** * Further properties of the bulk crawler *)

Module CrawlSiteExtras.
Import CrawlSite CrawlSiteFacts.


(** ** The sink on arbitrary dicts *)

Lemma save_one_ok d fs :
  has_url d ->
  save_one d fs =
    (mkFiles (results_file fs ++ [line_of d])
             (errors_file fs ++ option_list (error_line_of d)), None).
Proof.
  intros [url Hurl]. unfold save_one, line_of, error_line_of. rewrite Hurl.
  destruct (d !! "error"); simpl; [done|by rewrite app_nil_r].
Qed.

Lemma save_one_no_url d fs :
  d !! "url" = None -> save_one d fs = (fs, Some "KeyError: 'url'").
Proof. intros H. unfold save_one. by rewrite H. Qed.

Lemma save_batch_results_app a b fs :
  save_batch_results (a ++ b) fs =
  match save_batch_results a fs with
  | (fs', Some e) => (fs', Some e)
  | (fs', None) => save_batch_results b fs'
  end.
Proof.
  revert fs. induction a as [|d a IH]; intros fs; simpl; [done|].
  destruct (save_one d fs) as [fs1 [e|]]; [done|]. apply IH.
Qed.

Lemma save_one_appends d fs :
  results_file fs `prefix_of` results_file (save_one d fs).1 /\
  errors_file fs `prefix_of` errors_file (save_one d fs).1.
Proof.
  unfold save_one. destruct (d !! "url") as [url|]; [|done].
  destruct (d !! "error") as [err|]; simpl; split;
    try done; by apply prefix_app_r.
Qed.

(** X12: the sink only appends: whatever dicts it is given, and whether or
    not it ends with an exception, both files keep their former lines as a
    prefix. *)
Theorem save_batch_results_appends results fs :
  results_file fs `prefix_of` results_file (save_batch_results results fs).1 /\
  errors_file fs `prefix_of` errors_file (save_batch_results results fs).1.
Proof.
  revert fs. induction results as [|d rest IH]; intros fs; simpl; [done|].
  destruct (save_one_appends d fs) as [H1 H2].
  destruct (save_one d fs) as [fs1 [e|]]; simpl in *; [done|].
  destruct (IH fs1) as [H3 H4]. split; by etrans.
Qed.

Lemma save_all_lines results fs :
  Forall has_url results ->
  save_batch_results results fs =
    (mkFiles (results_file fs ++ map line_of results)
             (errors_file fs ++ omap error_line_of results), None).
Proof.
  revert fs. induction results as [|d rest IH]; intros fs Hall; simpl.
  - rewrite !app_nil_r. by destruct fs.
  - apply Forall_cons in Hall as [Hd Hrest].
    rewrite (save_one_ok d fs Hd), (IH _ Hrest). simpl.
    rewrite <- !app_assoc. simpl.
    by destruct (error_line_of d).
Qed.

(** X13: when every dict has a ["url"] key the sink raises nothing; it
    appends one line per dict to the results log, in order, and one line to
    the errors log for each dict that has an ["error"] key, in order. *)
Theorem save_batch_results_lines results fs :
  Forall has_url results ->
  save_batch_results results fs =
    (mkFiles (results_file fs ++ map line_of results)
             (errors_file fs ++ omap error_line_of results), None).
Proof.
  intros Hall. revert fs.
  induction Hall as [|d rest Hd _ IH]; intros fs; cbn [save_batch_results].
  - cbn [map omap]. rewrite !app_nil_r. by destruct fs.
  - rewrite (save_one_ok d fs Hd), IH. cbn [results_file errors_file].
    rewrite <- !app_assoc. f_equal. csimpl.
    by destruct (error_line_of d).
Qed.

(** X14: the first dict without a ["url"] key ends the call with a
    KeyError; the dicts before it have been written, that dict and the ones
    after it have not. *)
Theorem save_batch_results_key_error before d after fs :
  Forall has_url before -> d !! "url" = None ->
  save_batch_results (before ++ d :: after) fs =
    (mkFiles (results_file fs ++ map line_of before)
             (errors_file fs ++ omap error_line_of before),
     Some "KeyError: 'url'").
Proof.
  intros Hbefore Hd.
  rewrite save_batch_results_app, (save_all_lines before fs Hbefore).
  simpl. by rewrite (save_one_no_url d _ Hd).
Qed.

(** ** One pass over the URLs *)

Section OnePass.
Variable arun : nat -> string -> Outcome.

Lemma settle_acc url o stats batch_results :
  settle url o (stats, batch_results) =
  ((settle url o (stats, [])).1, batch_results ++ (settle url o (stats, [])).2).
Proof.
  unfold settle. destruct o as [r|msg].
  - destruct (success r); [|by rewrite app_nil_r].
    destruct (result_dict url r); [by rewrite app_nil_r|done].
  - destruct (contains "timeout" (lower msg)); by rewrite app_nil_r.
Qed.

Lemma settle_batch_acc i batch stats batch_results :
  settle_batch arun i batch (stats, batch_results) =
  ((settle_batch arun i batch (stats, [])).1,
   batch_results ++ (settle_batch arun i batch (stats, [])).2).
Proof.
  revert i stats batch_results.
  induction batch as [|url rest IH]; intros i stats br;
    cbn [settle_batch fst snd].
  - by rewrite app_nil_r.
  - rewrite (settle_acc url (arun i url) stats br).
    destruct (settle url (arun i url) (stats, [])) as [s1 d1] eqn:Hs.
    cbn [fst snd].
    rewrite (IH (S i) s1 (br ++ d1)), (IH (S i) s1 d1). cbn [fst snd].
    by rewrite app_assoc.
Qed.

Lemma settle_batch_app i l1 l2 acc :
  settle_batch arun i (l1 ++ l2) acc =
  settle_batch arun (i + length l1) l2 (settle_batch arun i l1 acc).
Proof.
  revert i acc. induction l1 as [|url l1 IH]; intros i acc; simpl.
  - by rewrite Nat.add_0_r.
  - rewrite IH. f_equal. lia.
Qed.

Lemma settle_batch_slice (urls : list string) k start acc :
  settle_batch arun start (drop start urls) acc =
  settle_batch arun (start + k) (drop (start + k) urls)
    (settle_batch arun start (slice urls start k) acc).
Proof.
  unfold slice.
  rewrite <- (take_drop k (drop start urls)) at 1.
  rewrite settle_batch_app, drop_drop.
  destruct (decide (start + k <= length urls)) as [Hle|Hgt].
  - rewrite length_take, length_drop. do 2 f_equal. lia.
  - by rewrite (drop_ge urls (start + k)) by lia.
Qed.

Lemma files_eta fs :
  mkFiles (results_file fs ++ []) (errors_file fs) = fs.
Proof. destruct fs. simpl. by rewrite app_nil_r. Qed.

Lemma run_batches_range (urls : list string) k fuel start stats fs :
  0 < k -> length urls - start <= fuel ->
  run_batches arun
    (map (fun i => (i, slice urls i k)) (range_from fuel start (length urls) k))
    stats fs
  = (mkFiles
       (results_file fs
          ++ map line_of (settle_batch arun start (drop start urls) (stats, [])).2)
       (errors_file fs),
     inr (settle_batch arun start (drop start urls) (stats, [])).1).
Proof.
  intros Hk. revert start stats fs.
  induction fuel as [|fuel IH]; intros start stats fs Hfuel; simpl.
  - rewrite drop_ge by lia. simpl. by rewrite files_eta.
  - destruct (Nat.ltb_spec start (length urls)) as [Hlt|Hge]; simpl.
    + rewrite (settle_batch_slice urls k start).
      pose proof (settle_batch_results arun start (slice urls start k)
                    (stats, []) (Forall_nil_2 _)) as Hclean.
      destruct (settle_batch arun start (slice urls start k) (stats, []))
        as [s1 br] eqn:Hb. simpl in Hclean.
      rewrite (settle_batch_acc (start + k) _ s1 br). simpl.
      assert (Forall has_url br /\ omap error_line_of br = []) as [Hurl Herr].
      { clear -Hclean. induction Hclean as [|d br [Hu He] _ [IH1 IH2]]; [done|].
        split; [by constructor|]. simpl. unfold error_line_of at 1.
        unfold no_error in He. by rewrite He. }
      destruct br as [|d br].
      * rewrite IH by lia. done.
      * rewrite (save_all_lines (d :: br) fs Hurl), Herr, app_nil_r.
        rewrite IH by lia. simpl. by rewrite map_app, <- !app_assoc.
    + rewrite drop_ge by lia. simpl. by rewrite files_eta.
Qed.

(** The whole crawl as one pass over the list. *)
Lemma crawl_parallel_one_pass urls fs max_concurrent :
  (1 <= max_concurrent)%Z ->
  crawl_parallel arun urls fs max_concurrent =
    (mkFiles
       (results_file fs ++ map line_of (settle_batch arun 0 urls (stats0, [])).2)
       (errors_file fs),
     inr (settle_batch arun 0 urls (stats0, [])).1).
Proof.
  intros HK. unfold crawl_parallel, batches, py_range.
  destruct (Z.eqb_spec max_concurrent 0) as [?|_]; [lia|].
  destruct (Z.ltb_spec max_concurrent 0) as [?|_]; [lia|].
  rewrite run_batches_range by lia. by rewrite drop_0.
Qed.

Lemma settle_counter_step c url o acc :
  counter c (settle url o acc).1 =
  counter c acc.1 + (if decide (category_of o = c) then 1 else 0).
Proof.
  destruct acc as [stats br].
  unfold settle, category_of, indicates_timeout, result_dict.
  destruct o as [r|msg].
  - destruct (success r); destruct c; simpl; lia.
  - destruct (contains "timeout" (lower msg)); destruct c; simpl; lia.
Qed.

Lemma settle_batch_tally c i urls acc :
  counter c (settle_batch arun i urls acc).1 =
  counter c acc.1 + tally arun c i urls.
Proof.
  revert i acc. induction urls as [|url rest IH]; intros i acc;
    cbn [settle_batch tally]; [lia|].
  rewrite IH, settle_counter_step. lia.
Qed.

Lemma result_dict_url url r d :
  result_dict url r = inr d -> d !! "url" = Some (JStr url).
Proof.
  unfold result_dict. intros [= <-]. cbn [list_to_map foldr].
  apply lookup_insert_eq.
Qed.

Lemma settle_batch_urls i urls stats :
  map (fun d => d !! "url") (settle_batch arun i urls (stats, [])).2 =
  map (fun url => Some (JStr url)) (successes arun i urls).
Proof.
  revert i stats. induction urls as [|url rest IH]; intros i stats;
    cbn [settle_batch successes]; [done|].
  destruct (arun i url) as [r|msg]; unfold settle.
  - destruct (success r).
    + destruct (result_dict url r) as [e|d] eqn:Hd.
      * unfold result_dict in Hd. discriminate.
      * rewrite settle_batch_acc. cbn [fst snd app map].
        rewrite (result_dict_url url r d Hd). f_equal. apply IH.
    + apply IH.
  - destruct (contains "timeout" (lower msg)); apply IH.
Qed.

Lemma successes_tally i urls :
  length (successes arun i urls) = tally arun Success i urls.
Proof.
  revert i. induction urls as [|url rest IH]; intros i; simpl; [done|].
  unfold category_of, indicates_timeout. destruct (arun i url) as [r|msg].
  - destruct (success r); simpl; by rewrite IH.
  - rewrite IH. by destruct (contains "timeout" (lower msg)).
Qed.

End OnePass.

(** ** The coordinator as a whole *)

(** X15: for a bound of at least one, the counters returned and the lines
    of both logs, apart from the timestamp that each record is stamped
    with when it is written, do not depend on the bound: batching changes
    when results are flushed, not what is counted or which records are
    written (the outcome of a URL being determined by its session number
    and the URL). *)
Theorem crawl_parallel_bound_irrelevant arun urls fs k1 k2 :
  (1 <= k1)%Z -> (1 <= k2)%Z ->
  crawl_parallel arun urls fs k1 = crawl_parallel arun urls fs k2.
Proof.
  intros H1 H2. by rewrite !crawl_parallel_one_pass.
Qed.

(** X16: for a bound of at least one, each returned counter is the number
    of positions [p] of the list whose URL, crawled in session [p], settles
    in the class of that counter. *)
Theorem crawl_parallel_counts arun urls fs max_concurrent :
  (1 <= max_concurrent)%Z ->
  exists fs' stats,
    crawl_parallel arun urls fs max_concurrent = (fs', inr stats) /\
    forall c, counter c stats = tally arun c 0 urls.
Proof.
  intros HK. rewrite crawl_parallel_one_pass by done.
  eexists _, _. split; [done|]. intros c.
  rewrite settle_batch_tally. by destruct c.
Qed.

(** X17: for a bound of at least one, the results log receives exactly one
    line for each URL whose crawl returns a result with success, in the
    order of the list and carrying that URL in its ["url"] field; their
    number is the success counter, and the errors log is left as it was. *)
Theorem crawl_parallel_results_log arun urls fs max_concurrent :
  (1 <= max_concurrent)%Z ->
  exists lines stats,
    crawl_parallel arun urls fs max_concurrent =
      (mkFiles (results_file fs ++ lines) (errors_file fs), inr stats) /\
    map (field "url") lines
      = map (fun url => Some (JStr url)) (successes arun 0 urls) /\
    length lines = st_success stats.
Proof.
  intros HK. rewrite crawl_parallel_one_pass by done.
  eexists _, _. split; [done|].
  assert (map (field "url")
            (map line_of (settle_batch arun 0 urls (stats0, [])).2)
          = map (fun url => Some (JStr url)) (successes arun 0 urls)) as Hurls.
  { rewrite <- settle_batch_urls with (stats := stats0), map_map.
    pose proof (settle_batch_results arun 0 urls (stats0, []) (Forall_nil_2 _))
      as Hclean.
    revert Hclean. generalize (settle_batch arun 0 urls (stats0, [])).2.
    intros br Hclean.
    induction Hclean as [|d br [[u Hu] _] _ IH]; cbn [map]; [done|].
    f_equal; [|done]. unfold line_of. by rewrite Hu. }
  split; [done|].
  apply (f_equal length) in Hurls. rewrite !length_map in Hurls.
  rewrite length_map, Hurls, successes_tally.
  change (st_success ?s) with (counter Success s).
  by rewrite settle_batch_tally.
Qed.

(** X18: a bound of zero makes [range] raise before anything is crawled or
    written, even for an empty list of URLs; a negative bound makes the
    loop empty, so that no URL is crawled and all counters are zero. *)
Theorem crawl_parallel_without_bound arun urls fs max_concurrent :
  (max_concurrent <= 0)%Z ->
  crawl_parallel arun urls fs max_concurrent =
    (fs, if (max_concurrent =? 0)%Z
         then inl "range() arg 3 must not be zero" else inr stats0).
Proof.
  intros HK. unfold crawl_parallel, batches, py_range.
  destruct (Z.eqb_spec max_concurrent 0) as [?|Hne]; [done|].
  destruct (Z.ltb_spec max_concurrent 0) as [?|?]; [done|lia].
Qed.

(** ** Sitemap discovery as a whole *)

Section Discovery.
Variable urljoin : string -> string -> string.
Variable fetch : string -> option (list (option string)).

Lemma try_locations_result base locations :
  (try_locations urljoin fetch base locations ∅ = ∅ /\
   Forall (yields_nothing urljoin fetch base) locations) \/
  (exists before path after sitemaps,
     locations = before ++ path :: after /\
     Forall (yields_nothing urljoin fetch base) before /\
     fetch (urljoin base path) = Some sitemaps /\
     found fetch sitemaps <> ∅ /\
     try_locations urljoin fetch base locations ∅ = found fetch sitemaps).
Proof.
  induction locations as [|p rest IH]; simpl; [left; by split|].
  assert (yields_nothing urljoin fetch base p ->
    try_locations urljoin fetch base rest ∅
      = try_locations urljoin fetch base (p :: rest) ∅ ->
    (try_locations urljoin fetch base (p :: rest) ∅ = ∅ /\
     Forall (yields_nothing urljoin fetch base) (p :: rest)) \/
    (exists before path after sitemaps,
       p :: rest = before ++ path :: after /\
       Forall (yields_nothing urljoin fetch base) before /\
       fetch (urljoin base path) = Some sitemaps /\
       found fetch sitemaps <> ∅ /\
       try_locations urljoin fetch base (p :: rest) ∅ = found fetch sitemaps))
    as Hskip.
  { intros Hp Heq. rewrite <- Heq.
    destruct IH as [[H1 H2]|(before & path & after & sm & -> & H2 & H3 & H4 & H5)].
    - left. split; [done|]. by constructor.
    - right. exists (p :: before), path, after, sm.
      split_and!; try done. by constructor. }
  simpl in Hskip.
  destruct (fetch (urljoin base p)) as [sitemaps|] eqn:Hf.
  - rewrite collect_found, (left_id_L ∅ (∪)) in *.
    case_bool_decide as Hempty.
    + rewrite Hempty in *. apply Hskip; [|done].
      unfold yields_nothing. by rewrite Hf.
    + right. exists [], p, rest, sitemaps. by split_and!.
  - apply Hskip; [|done]. unfold yields_nothing. by rewrite Hf.
Qed.

End Discovery.

(** X19: the resolver returns no URL exactly when every one of the four
    candidate locations yields nothing, that is, cannot be fetched or
    parsed, or yields an empty set. *)
Theorem discover_empty_iff urljoin fetch base :
  get_sitemap_urls urljoin fetch base = ∅ <->
  Forall (yields_nothing urljoin fetch base) sitemap_locations.
Proof.
  unfold get_sitemap_urls. split.
  - intros Hempty.
    destruct (try_locations_result urljoin fetch base sitemap_locations)
      as [[_ H]|(before & path & after & sm & _ & _ & _ & Hne & Heq)]; [done|].
    congruence.
  - apply try_locations_nothing.
Qed.

(** X20: the URLs of different candidate locations are never mixed: the
    resolver returns either nothing or exactly what one candidate yields,
    that candidate being the first one that yields any URL. *)
Theorem discover_single_candidate urljoin fetch base :
  get_sitemap_urls urljoin fetch base = ∅ \/
  exists k path sitemaps,
    sitemap_locations !! k = Some path /\
    (forall j p, j < k -> sitemap_locations !! j = Some p ->
       yields_nothing urljoin fetch base p) /\
    fetch (urljoin base path) = Some sitemaps /\
    found fetch sitemaps <> ∅ /\
    get_sitemap_urls urljoin fetch base = found fetch sitemaps.
Proof.
  unfold get_sitemap_urls.
  destruct (try_locations_result urljoin fetch base sitemap_locations)
    as [[H _]|(before & path & after & sm & Hl & Hb & Hf & Hne & Heq)];
    [by left|right].
  exists (length before), path, sm. rewrite Hl. split_and!; try done.
  - by apply list_lookup_middle.
  - intros j p Hj Hp. rewrite lookup_app_l in Hp by done.
    rewrite Forall_lookup in Hb. by apply (Hb j).
  - by rewrite <- Hl.
Qed.

(** ** Strings *)

Lemma prefix_spec a s :
  String.prefix a s = true <-> exists post, s = a +:+ post.
Proof.
  revert s. induction a as [|c a IH]; intros [|c' s]; simpl.
  - split; [intros _; by exists ""|done].
  - split; [intros _; by exists (String c' s)|done].
  - split; [done|]. by intros [post H].
  - destruct (Ascii.ascii_dec c c') as [->|Hne].
    + rewrite IH. split; intros [post H]; exists post;
        [by rewrite H|by injection H].
    + split; [done|]. intros [post H]. by injection H.
Qed.

Lemma contains_prefix needle hay :
  String.prefix needle hay = true -> contains needle hay = true.
Proof. destruct hay; cbn [contains]; by intros ->. Qed.

Lemma contains_spec needle hay :
  contains needle hay = true <->
  exists pre post, hay = pre +:+ needle +:+ post.
Proof.
  split.
  - induction hay as [|c hay IH]; cbn [contains];
      rewrite orb_true_iff, prefix_spec.
    + intros [[post H]|?]; [|done]. by exists "", post.
    + intros [[post H]|H].
      * by exists "", post.
      * destruct (IH H) as (pre & post & ->). by exists (String c pre), post.
  - intros (pre & post & ->). induction pre as [|c pre IH].
    + apply contains_prefix, prefix_spec. by exists post.
    + change (String c pre +:+ needle +:+ post)
        with (String c (pre +:+ needle +:+ post)).
      cbn [contains]. apply orb_true_iff. by right.
Qed.

Lemma lower_app a b : lower (a +:+ b) = lower a +:+ lower b.
Proof. induction a as [|c a IH]; simpl; [done|]. by rewrite IH. Qed.

Lemma lower_split s a b :
  lower s = a +:+ b ->
  exists s1 s2, s = s1 +:+ s2 /\ lower s1 = a /\ lower s2 = b.
Proof.
  revert s. induction a as [|c a IH]; intros s; simpl.
  - intros H. by exists "", s.
  - destruct s as [|c' s]; simpl; [done|]. intros [= Hc Hs].
    destruct (IH s Hs) as (s1 & s2 & -> & H1 & H2).
    exists (String c' s1), s2. simpl. by rewrite Hc, H1.
Qed.

(** X21: an exception counts as a timeout exactly when its message
    contains the word timeout in any mixture of upper and lower case. *)
Theorem indicates_timeout_spec msg :
  indicates_timeout msg = true <->
  exists pre w post, msg = pre +:+ w +:+ post /\ lower w = "timeout".
Proof.
  unfold indicates_timeout. rewrite contains_spec. split.
  - intros (pre' & post' & H).
    apply lower_split in H as (pre & rest & -> & _ & H).
    apply lower_split in H as (w & post & -> & Hw & _).
    by exists pre, w, post.
  - intros (pre & w & post & -> & Hw).
    exists (lower pre), (lower post). by rewrite !lower_app, Hw.
Qed.

Lemma length_app_string a b :
  String.length (a +:+ b) = String.length a + String.length b.
Proof. induction a as [|c a IH]; simpl; [done|]. by rewrite IH. Qed.

Lemma substring_skip pre m s :
  String.substring (String.length pre) m (pre +:+ s) = String.substring 0 m s.
Proof. induction pre as [|c pre IH]; simpl; [done|]. apply IH. Qed.

Lemma substring_all s : String.substring 0 (String.length s) s = s.
Proof. induction s as [|c s IH]; simpl; [done|]. by rewrite IH. Qed.

Lemma split_at n s :
  n <= String.length s ->
  exists pre rest, s = pre +:+ rest /\ String.length pre = n.
Proof.
  revert s. induction n as [|n IH]; intros s Hn.
  - by exists "", s.
  - destruct s as [|c s]; simpl in Hn; [lia|].
    destruct (IH s ltac:(lia)) as (pre & rest & -> & Hlen).
    exists (String c pre), rest. simpl. by rewrite Hlen.
Qed.

Lemma endswith_spec s suffix :
  endswith s suffix = true <-> exists pre, s = pre +:+ suffix.
Proof.
  unfold endswith. rewrite andb_true_iff, Nat.leb_le, String.eqb_eq. split.
  - intros [Hle Hsub].
    destruct (split_at (String.length s - String.length suffix) s ltac:(lia))
      as (pre & rest & -> & Hpre).
    exists pre. f_equal.
    rewrite length_app_string in *.
    replace (String.length pre + String.length rest - String.length suffix)
      with (String.length pre) in Hsub by lia.
    rewrite substring_skip in Hsub.
    replace (String.length suffix) with (String.length rest) in Hsub by lia.
    by rewrite substring_all in Hsub.
  - intros [pre ->]. rewrite length_app_string. split; [lia|].
    replace (String.length pre + String.length suffix - String.length suffix)
      with (String.length pre) by lia.
    by rewrite substring_skip, substring_all.
Qed.

(** X22: an entry of a sitemap is treated as a sub-sitemap exactly when it
    has a text and that text ends in [.xml] (in lower case; the text [.xml]
    alone counts). *)
Theorem is_xml_spec text :
  is_xml text = true <-> exists pre, text = Some (pre +:+ ".xml").
Proof.
  destruct text as [s|].
  - rewrite is_xml_Some, endswith_spec.
    split; intros [pre H]; exists pre; congruence.
  - split; [done|]. by intros [? ?].
Qed.

(** ** Instances *)

Lemma sample_dicts_have_url : Forall has_url [sample_ok_dict; sample_error_dict].
Proof.
  repeat constructor; [exists (JStr "https://a.example")|exists (JStr "https://b.example")];
    reflexivity.
Defined.

(** Two dicts, the second with an error: two result lines, one error
    line. *)
Lemma save_batch_results_lines_witness :
  Forall has_url [sample_ok_dict; sample_error_dict] /\
  save_batch_results [sample_ok_dict; sample_error_dict] (mkFiles [] []) =
    (mkFiles [line_of sample_ok_dict; line_of sample_error_dict]
             [error_entry (JStr "https://b.example") (JStr "boom")], None).
Proof.
  split; [exact sample_dicts_have_url|].
  exact (save_batch_results_lines [sample_ok_dict; sample_error_dict]
           (mkFiles [] []) sample_dicts_have_url).
Defined.

(** A dict without URL between two good ones: only the first is written. *)
Lemma save_batch_results_key_error_witness :
  Forall has_url [sample_ok_dict] /\
  sample_bad_dict !! "url" = None /\
  save_batch_results ([sample_ok_dict] ++ sample_bad_dict :: [sample_error_dict])
                     (mkFiles [] []) =
    (mkFiles [line_of sample_ok_dict] [], Some "KeyError: 'url'").
Proof.
  assert (Forall has_url [sample_ok_dict]) as H.
  { repeat constructor. exists (JStr "https://a.example"). reflexivity. }
  split; [exact H|]. split; [reflexivity|].
  exact (save_batch_results_key_error [sample_ok_dict] sample_bad_dict
           [sample_error_dict] (mkFiles [] []) H eq_refl).
Defined.

Lemma crawl_parallel_bound_irrelevant_witness :
  (1 <= 2)%Z /\ (1 <= 5)%Z /\
  crawl_parallel sample_arun seven_urls (mkFiles [] []) 2
    = crawl_parallel sample_arun seven_urls (mkFiles [] []) 5.
Proof.
  assert (1 <= 2)%Z as H2 by lia. assert (1 <= 5)%Z as H5 by lia.
  split; [exact H2|]. split; [exact H5|].
  exact (crawl_parallel_bound_irrelevant sample_arun seven_urls
           (mkFiles [] []) 2 5 H2 H5).
Defined.

Lemma crawl_parallel_counts_witness :
  (1 <= 3)%Z /\
  exists fs' stats,
    crawl_parallel sample_arun seven_urls (mkFiles [] []) 3 = (fs', inr stats) /\
    forall c, counter c stats = tally sample_arun c 0 seven_urls.
Proof.
  assert (1 <= 3)%Z as H3 by lia.
  split; [exact H3|].
  exact (crawl_parallel_counts sample_arun seven_urls (mkFiles [] []) 3 H3).
Defined.

Lemma crawl_parallel_results_log_witness :
  (1 <= 3)%Z /\
  exists lines stats,
    crawl_parallel sample_arun seven_urls (mkFiles [] []) 3 =
      (mkFiles ([] ++ lines) [], inr stats) /\
    map (field "url") lines
      = map (fun url => Some (JStr url)) ["d"; "e"; "f"; "g"] /\
    length lines = st_success stats.
Proof.
  assert (1 <= 3)%Z as H3 by lia.
  split; [exact H3|].
  exact (crawl_parallel_results_log sample_arun seven_urls (mkFiles [] []) 3 H3).
Defined.

Lemma crawl_parallel_without_bound_witness :
  (-2 <= 0)%Z /\ (0 <= 0)%Z /\
  crawl_parallel sample_arun seven_urls (mkFiles [] []) (-2)
    = (mkFiles [] [], inr stats0) /\
  crawl_parallel sample_arun [] (mkFiles [] []) 0
    = (mkFiles [] [], inl "range() arg 3 must not be zero").
Proof.
  assert (-2 <= 0)%Z as Hn by lia. assert (0 <= 0)%Z as Hz by lia.
  split; [exact Hn|]. split; [exact Hz|]. split.
  - exact (crawl_parallel_without_bound sample_arun seven_urls
             (mkFiles [] []) (-2) Hn).
  - exact (crawl_parallel_without_bound sample_arun [] (mkFiles [] []) 0 Hz).
Defined.

End CrawlSiteExtras.

(** * Submission without a uniqueness assumption *)

Module SubmitFacts.
Import Server ServerFacts.




End SubmitFacts.

(** * The classes of the outcomes, stated without the code's own test *)

Module ClassifyFacts.
Import CrawlSite CrawlSiteFacts CrawlSiteExtras.

Lemma lower_ascii_letter c d :
  lower_ascii d = d -> same_letter c d -> lower_ascii c = d.
Proof.
  intros Hd [->|[Hc Hn]]; [done|].
  unfold lower_ascii.
  destruct (Nat.leb_spec 65 (nat_of_ascii c)); [|lia].
  destruct (Nat.leb_spec (nat_of_ascii c) 90); [|lia]. simpl.
  by rewrite <- Hn, ascii_nat_embedding.
Qed.

Lemma lower_ascii_same c : same_letter c (lower_ascii c).
Proof.
  unfold lower_ascii, same_letter.
  destruct (Nat.leb_spec 65 (nat_of_ascii c)); simpl; [|by left].
  destruct (Nat.leb_spec (nat_of_ascii c) 90); simpl; [|by left].
  right. split; [lia|]. apply nat_ascii_embedding. lia.
Qed.

Lemma spells_lower w pattern :
  lower pattern = pattern -> (spells w pattern <-> lower w = pattern).
Proof.
  revert w. induction pattern as [|d pattern IH]; intros [|c w] Hp; simpl;
    try (split; [done|discriminate]); [done|].
  injection Hp as Hd Hp. rewrite (IH w Hp). split.
  - intros [Hc <-]. by rewrite (lower_ascii_letter c d Hd Hc).
  - intros [= <- <-]. split; [apply lower_ascii_same|done].
Qed.

Lemma says_timeout_test msg :
  says_timeout msg <-> contains "timeout" (lower msg) = true.
Proof.
  unfold says_timeout. rewrite contains_spec. split.
  - intros (pre & w & post & -> & Hw).
    apply (spells_lower w "timeout" eq_refl) in Hw.
    exists (lower pre), (lower post). by rewrite !lower_app, Hw.
  - intros (pre' & post' & H).
    apply lower_split in H as (pre & rest & -> & _ & H).
    apply lower_split in H as (w & post & -> & Hw & _).
    exists pre, w, post. split; [done|].
    by apply (spells_lower w "timeout" eq_refl).
Qed.

(** C6: one settled outcome changes the counters and the batch results as
    follows, and in no other way.  An exception whose message contains the
    word timeout, in any mixture of upper and lower case, adds one to
    timeout; any other exception adds one to error; a result without
    success adds one to failed; a result with success adds one to success
    and appends one dict, carrying the URL, to the batch results.  In each
    case the other three counters keep their values. *)
Theorem settle_classifies url o stats batch_results :
  match o with
  | Raised msg =>
      (says_timeout msg ->
         settle url o (stats, batch_results) =
           (mkStats (st_success stats) (st_failed stats)
                    (S (st_timeout stats)) (st_error stats), batch_results)) /\
      (~ says_timeout msg ->
         settle url o (stats, batch_results) =
           (mkStats (st_success stats) (st_failed stats)
                    (st_timeout stats) (S (st_error stats)), batch_results))
  | Returned r =>
      (success r = false ->
         settle url o (stats, batch_results) =
           (mkStats (st_success stats) (S (st_failed stats))
                    (st_timeout stats) (st_error stats), batch_results)) /\
      (success r = true ->
         exists d,
           d !! "url" = Some (JStr url) /\
           settle url o (stats, batch_results) =
             (mkStats (S (st_success stats)) (st_failed stats)
                      (st_timeout stats) (st_error stats),
              batch_results ++ [d]))
  end.
Proof.
  destruct o as [r|msg]; unfold settle.
  - split; intros ->; [done|].
    destruct (result_dict url r) as [e|d] eqn:Hd.
    + unfold result_dict in Hd. discriminate.
    + exists d. split; [|done]. by apply (result_dict_url url r).
  - rewrite says_timeout_test.
    destruct (contains "timeout" (lower msg)); split; intros H; done.
Qed.

(** The message of a page timeout, with a capital T, is counted as a
    timeout. *)
Lemma settle_classifies_witness :
  says_timeout "Page.goto: Timeout 30000ms exceeded" /\
  settle "https://a.example" (Raised "Page.goto: Timeout 30000ms exceeded")
         (stats0, []) = (mkStats 0 0 1 0, []).
Proof.
  assert (says_timeout "Page.goto: Timeout 30000ms exceeded") as H.
  { exists "Page.goto: ", "Timeout", " 30000ms exceeded".
    split; [reflexivity|]. simpl. unfold same_letter.
    split_and!; try (by left); try exact I.
    right. split; [split; apply Nat.leb_le; reflexivity|reflexivity]. }
  split; [exact H|].
  exact (proj1 (settle_classifies "https://a.example"
                  (Raised "Page.goto: Timeout 30000ms exceeded") stats0 []) H).
Defined.

(** A connection reset is counted as an error, a result without success
    as failed. *)
Example other_outcomes_counted :
  settle "https://a.example" (Raised "net::ERR_CONNECTION_RESET")
         (stats0, []) = (mkStats 0 0 0 1, []) /\
  settle "https://a.example" (Returned unresolved) (stats0, [])
    = (mkStats 0 1 0 0, []).
Proof. split; reflexivity. Qed.

End ClassifyFacts.

(** * The sitemap policy, stated without the code's own test *)

Module PolicyFacts.
Import CrawlSite CrawlSiteFacts CrawlSiteExtras.

Lemma is_xml_suffix text :
  is_xml text = true <-> exists pre, text = Some (pre +:+ ".xml").
Proof.
  destruct text as [s|].
  - rewrite is_xml_Some, endswith_spec.
    split; intros [pre H]; exists pre; congruence.
  - split; [done|]. by intros [? ?].
Qed.

Lemma has_xml_entry_test sitemaps :
  has_xml_entry sitemaps <-> existsb is_xml sitemaps = true.
Proof.
  unfold has_xml_entry. rewrite existsb_exists. split.
  - intros [pre Hin]. exists (Some (pre +:+ ".xml")). split.
    + by apply list_elem_of_In.
    + apply is_xml_suffix. by exists pre.
  - intros (x & Hin & [pre ->]%is_xml_suffix). exists pre.
    by apply list_elem_of_In.
Qed.

Lemma yields_found fetch sitemaps u :
  yields fetch sitemaps u <-> u ∈ found fetch sitemaps.
Proof.
  unfold yields, found. rewrite has_xml_entry_test.
  destruct (existsb is_xml sitemaps).
  - rewrite elem_of_leaf_union. unfold leaf_of. split.
    + intros [[_ (pre & sub & H1 & H2 & H3)]|[H _]]; [|done].
      exists (pre +:+ ".xml"), sub. split_and!; try done.
      apply endswith_spec. by exists pre.
    + intros (s & sub & H1 & [pre ->]%endswith_spec & H3 & H4).
      left. split; [done|]. by exists pre, sub.
  - rewrite elem_of_list_to_set. split.
    + intros [[H _]|[_ H]]; done.
    + intros H. right. split; [discriminate|done].
Qed.

Lemma silent_yields_nothing urljoin fetch base p :
  silent urljoin fetch base p <-> yields_nothing urljoin fetch base p.
Proof.
  unfold silent, yields_nothing.
  destruct (fetch (urljoin base p)) as [sitemaps|]; [|done]. split.
  - intros H. apply set_eq. intros u. rewrite <- yields_found.
    split; [intros ?; by destruct (H u)|by intros ?%elem_of_empty].
  - intros H u. rewrite yields_found, H. apply not_elem_of_empty.
Qed.

(** C7: take a candidate before which every candidate yielded no URL, and
    which yields some URL itself or is followed only by candidates that
    yield none.  When at least one of its entries ends in [.xml], the
    resolver returns exactly the [loc] texts of the documents fetched from
    its entries that end in [.xml], and what its other entries name is not
    added; when none of its entries ends in [.xml], the resolver returns
    exactly its entries. *)
Theorem discover_by_policy urljoin fetch base k path sitemaps :
  sitemap_locations !! k = Some path ->
  (forall j p, j < k -> sitemap_locations !! j = Some p ->
     silent urljoin fetch base p) ->
  fetch (urljoin base path) = Some sitemaps ->
  ((forall u, ~ yields fetch sitemaps u) ->
     forall j p, k < j -> sitemap_locations !! j = Some p ->
       silent urljoin fetch base p) ->
  ((exists pre, Some (pre +:+ ".xml") ∈ sitemaps) ->
     forall u,
       u ∈ get_sitemap_urls urljoin fetch base <->
       exists pre sub,
         Some (pre +:+ ".xml") ∈ sitemaps /\
         fetch (pre +:+ ".xml") = Some sub /\ u ∈ sub) /\
  ((forall pre, Some (pre +:+ ".xml") ∉ sitemaps) ->
     forall u, u ∈ get_sitemap_urls urljoin fetch base <-> u ∈ sitemaps).
Proof.
  intros Hk Hbefore Hfetch Hafter.
  assert (get_sitemap_urls urljoin fetch base = found fetch sitemaps) as Heq.
  { unfold get_sitemap_urls.
    rewrite <- (take_drop_middle _ _ _ Hk).
    rewrite try_locations_skip.
    - simpl. rewrite Hfetch, collect_found, (left_id_L ∅ (∪)).
      case_bool_decide as Hempty; [|done].
      rewrite Hempty. apply try_locations_nothing.
      apply Forall_lookup. intros j p Hj.
      rewrite lookup_drop in Hj. apply silent_yields_nothing.
      apply (Hafter) with (j := S k + j); [|lia|done].
      intros u. rewrite yields_found, Hempty. apply not_elem_of_empty.
    - apply Forall_lookup. intros j p Hj.
      apply lookup_take_Some in Hj as [Hj Hlt].
      apply silent_yields_nothing. by apply (Hbefore j). }
  split.
  - intros Hxml u. rewrite Heq, <- yields_found. unfold yields, leaf_of.
    fold (has_xml_entry sitemaps) in Hxml. split.
    + intros [[_ H]|[H _]]; done.
    + intros H. by left.
  - intros Hflat u. rewrite Heq, <- yields_found. unfold yields.
    assert (~ has_xml_entry sitemaps) as Hno.
    { intros [pre Hpre]. by apply (Hflat pre). }
    split.
    + intros [[H _]|[_ H]]; done.
    + intros H. by right.
Qed.

(** A site without [/sitemap.xml] whose index names two sub-sitemaps and
    one page: the page is not returned, the three leaves are. *)
Lemma discover_by_policy_witness :
  sitemap_locations !! 1 = Some "/sitemap_index.xml" /\
  silent String.append sample_fetch "https://site.example" "/sitemap.xml" /\
  sample_fetch (String.append "https://site.example" "/sitemap_index.xml")
    = Some sample_index /\
  yields sample_fetch sample_index (Some "https://site.example/p1") /\
  (Some "https://site.example/p1"
     ∈ get_sitemap_urls String.append sample_fetch "https://site.example") /\
  (Some "https://site.example/about"
     ∉ get_sitemap_urls String.append sample_fetch "https://site.example").
Proof.
  assert (Some "https://site.example/posts.xml" ∈ sample_index) as Hposts.
  { apply list_elem_of_here. }
  assert (has_xml_entry sample_index) as Hxml.
  { exists "https://site.example/posts". exact Hposts. }
  assert (yields sample_fetch sample_index (Some "https://site.example/p1"))
    as Hy.
  { left. split; [exact Hxml|].
    exists "https://site.example/posts",
      [Some "https://site.example/p1"; Some "https://site.example/p2"].
    split; [exact Hposts|]. split; [reflexivity|]. apply list_elem_of_here. }
  assert (forall j p, j < 1 -> sitemap_locations !! j = Some p ->
            silent String.append sample_fetch "https://site.example" p)
    as Hbefore.
  { intros [|j] p Hj; [|lia]. intros [= <-]. exact I. }
  destruct (discover_by_policy String.append sample_fetch
              "https://site.example" 1 "/sitemap_index.xml" sample_index
              eq_refl Hbefore eq_refl
              (fun Hnone => False_ind _ (Hnone _ Hy))) as [Hindex _].
  split; [reflexivity|]. split; [exact I|]. split; [reflexivity|].
  split; [exact Hy|]. split.
  - apply (Hindex Hxml). destruct Hy as [[_ H]|[H _]]; [exact H|].
    destruct (H Hxml).
  - apply (bool_decide_unpack _). vm_compute. exact I.
Defined.

End PolicyFacts.

(** * The batches that the coordinator runs, and what it counts *)

Module BatchFacts.
Import CrawlSite CrawlSiteFacts CrawlSiteExtras.

Lemma range_from_lookup fuel start stop k n i :
  range_from fuel start stop k !! n = Some i -> i = start + n * k.
Proof.
  revert start n. induction fuel as [|fuel IH]; intros start n; simpl; [done|].
  destruct (start <? stop)%nat; [|done].
  destruct n as [|n]; simpl.
  - intros [= <-]. lia.
  - intros H%IH. lia.
Qed.

Lemma settle_kinds url o acc :
  st_success (settle url o acc).1
    = st_success acc.1 + (if returned_success o then 1 else 0) /\
  st_failed (settle url o acc).1
    = st_failed acc.1 + (if returned_failure o then 1 else 0) /\
  st_timeout (settle url o acc).1 + st_error (settle url o acc).1
    = st_timeout acc.1 + st_error acc.1 + (if raised o then 1 else 0).
Proof.
  destruct acc as [stats br]. unfold settle, result_dict.
  destruct o as [r|msg]; simpl.
  - destruct (success r); simpl; lia.
  - destruct (contains "timeout" (lower msg)); simpl; lia.
Qed.

Lemma settle_batch_kinds arun i urls acc :
  st_success (settle_batch arun i urls acc).1
    = st_success acc.1 + count_outcomes returned_success arun i urls /\
  st_failed (settle_batch arun i urls acc).1
    = st_failed acc.1 + count_outcomes returned_failure arun i urls /\
  st_timeout (settle_batch arun i urls acc).1
    + st_error (settle_batch arun i urls acc).1
    = st_timeout acc.1 + st_error acc.1 + count_outcomes raised arun i urls.
Proof.
  revert i acc. induction urls as [|url rest IH]; intros i acc;
    cbn [settle_batch count_outcomes]; [lia|].
  destruct (IH (S i) (settle url (arun i url) acc)) as (H1 & H2 & H3).
  destruct (settle_kinds url (arun i url) acc) as (K1 & K2 & K3).
  lia.
Qed.

(** C5: for [N] URLs and a bound [K >= 1] the coordinator runs its loop
    over exactly [ceil(N/K)] batches; batch number [n] starts at index
    [n * K] and holds the next [K] URLs of the list (fewer in the last
    batch, never none), so that the batches in order make up the list.  It
    returns counters: success counts the URLs whose crawl, in the session
    numbered by their position, returns a result with success, failed
    those whose crawl returns a result without success, and timeout and
    error together those whose crawl raises; the four add up to [N]. *)
Theorem crawl_parallel_batches_counted arun urls fs max_concurrent :
  (1 <= max_concurrent)%Z ->
  let k := Z.to_nat max_concurrent in
  exists bs fs' stats,
    batches urls max_concurrent = inr bs /\
    crawl_parallel arun urls fs max_concurrent = run_batches arun bs stats0 fs /\
    length bs = ceil_div (length urls) k /\
    length urls <= length bs * k < length urls + k /\
    (forall n b, bs !! n = Some b ->
       b = (n * k, take k (drop (n * k) urls)) /\ 1 <= length b.2 <= k) /\
    concat (map snd bs) = urls /\
    crawl_parallel arun urls fs max_concurrent = (fs', inr stats) /\
    st_success stats = count_outcomes returned_success arun 0 urls /\
    st_failed stats = count_outcomes returned_failure arun 0 urls /\
    st_timeout stats + st_error stats = count_outcomes raised arun 0 urls /\
    st_success stats + st_failed stats + st_timeout stats + st_error stats
      = length urls.
Proof.
  intros HK k. assert (0 < k) as Hk by lia.
  pose proof (crawl_parallel_one_pass arun urls fs max_concurrent HK) as Hone.
  revert Hone. unfold crawl_parallel, batches, py_range.
  destruct (Z.eqb_spec max_concurrent 0) as [?|_]; [lia|].
  destruct (Z.ltb_spec max_concurrent 0) as [?|_]; [lia|].
  fold k. set (bs := map _ _). intros Hone.
  assert (length bs = ceil_div (length urls) k) as Hlen.
  { subst bs. rewrite length_map, (range_from_length urls k Hk) by lia.
    f_equal. lia. }
  destruct (settle_batch_kinds arun 0 urls (stats0, [])) as (H1 & H2 & H3).
  pose proof (settle_batch_total arun 0 urls (stats0, [])) as Htot.
  eexists bs, _, _. split_and!; try done.
  - rewrite Hlen. apply ceil_div_spec. lia.
  - rewrite Hlen. apply ceil_div_spec. lia.
  - intros n b Hb. subst bs.
    apply list_lookup_fmap_Some in Hb as (i & -> & Hi).
    pose proof (range_from_sizes urls k Hk (length urls) 0) as Hsz.
    rewrite Forall_lookup in Hsz. specialize (Hsz n i Hi).
    apply range_from_lookup in Hi. simpl in Hi. subst i.
    split; [done|]. exact Hsz.
  - subst bs. rewrite map_map. simpl.
    rewrite (range_from_concat urls k Hk) by lia. apply drop_0.
Qed.

(** Seven URLs in batches of three. *)
Lemma crawl_parallel_batches_counted_witness :
  (1 <= 3)%Z /\
  exists bs fs' stats,
    batches seven_urls 3 = inr bs /\
    crawl_parallel sample_arun seven_urls (mkFiles [] []) 3
      = run_batches sample_arun bs stats0 (mkFiles [] []) /\
    length bs = 3 /\
    crawl_parallel sample_arun seven_urls (mkFiles [] []) 3 = (fs', inr stats) /\
    st_success stats = 4 /\ st_failed stats = 1 /\
    st_timeout stats + st_error stats = 2.
Proof.
  assert (1 <= 3)%Z as HK by lia.
  split; [exact HK|].
  destruct (crawl_parallel_batches_counted sample_arun seven_urls
              (mkFiles [] []) 3 HK)
    as (bs & fs' & stats & H1 & H2 & H3 & _ & _ & _ & H7 & H8 & H9 & H10 & _).
  exists bs, fs', stats.
  split; [exact H1|]. split; [exact H2|]. split; [exact H3|].
  split; [exact H7|]. split; [exact H8|]. split; [exact H9|exact H10].
Defined.

End BatchFacts.
